(** * VBDiarization: the diarization orchestrator of [python/lib/diarization.py]

    A shallow embedding of [Diarization.load_ivecs], [Diarization.score],
    [Diarization.dump_rttm], [Diarization.init_annotations], the hypothesis
    loop of [Diarization.get_der] and [Diarization.get_num_speakers],
    together with the Python and numpy primitives they call. *)

From Stdlib Require Import String Ascii List ZArith Bool Lia.
From stdpp Require Import gmap strings.
Import ListNotations.

Local Open Scope string_scope.
Local Open Scope list_scope.

(* ===================================================================== *)
(** ** Python [str] primitives *)
(* ===================================================================== *)

Module Py.

(** Whitespace of a Python 2 byte string: space, and \t \n \v \f \r. *)
Definition isspace (c : ascii) : bool :=
  let n := nat_of_ascii c in
  Nat.eqb n 32 || (Nat.leb 9 n && Nat.leb n 13).

Definition is_empty_str (s : string) : bool :=
  match s with EmptyString => true | String _ _ => false end.

(** [s.rstrip()] *)
Fixpoint rstrip (s : string) : string :=
  match s with
  | EmptyString => EmptyString
  | String c s' =>
      let r := rstrip s' in
      if isspace c && is_empty_str r then EmptyString else String c r
  end.

(** [s.split()]: the maximal runs of non-whitespace characters. *)
Fixpoint split (s : string) : list string :=
  match s with
  | EmptyString => []
  | String c s' =>
      if isspace c then split s'
      else match s' with
           | EmptyString => [String c EmptyString]
           | String c' _ =>
               if isspace c' then String c EmptyString :: split s'
               else match split s' with
                    | tok :: toks => String c tok :: toks
                    | [] => [String c EmptyString]
                    end
           end
  end.

(** [s.split(sep)] for a one-character separator: always at least one
    component. *)
Fixpoint split_on (sep : ascii) (s : string) : list string :=
  match s with
  | EmptyString => [EmptyString]
  | String c s' =>
      if Ascii.eqb c sep then EmptyString :: split_on sep s'
      else match split_on sep s' with
           | comp :: comps => String c comp :: comps
           | [] => [String c EmptyString]
           end
  end.

(** [sep.join(l)] *)
Fixpoint join (sep : string) (l : list string) : string :=
  match l with
  | [] => EmptyString
  | [x] => x
  | x :: rest => x +:+ sep +:+ join sep rest
  end.

(** [s.startswith(p)] *)
Definition startswith (s p : string) : bool := String.prefix p s.

(** [s.endswith("/")] *)
Fixpoint endswith_slash (s : string) : bool :=
  match s with
  | EmptyString => false
  | String c EmptyString => Ascii.eqb c "/"
  | String _ s' => endswith_slash s'
  end.

(** [p in s] *)
Fixpoint contains (p s : string) : bool :=
  String.prefix p s ||
  match s with
  | EmptyString => false
  | String _ s' => contains p s'
  end.

(** [re.sub(pat, '', s)] for a pattern [pat] without metacharacters: the
    leftmost non-overlapping occurrences are dropped.  [skip] counts the
    characters of the current match still to be dropped. *)
Fixpoint re_sub_drop (pat : string) (skip : nat) (s : string) : string :=
  match s with
  | EmptyString => EmptyString
  | String c s' =>
      match skip with
      | S k => re_sub_drop pat k s'
      | O =>
          if is_empty_str pat then String c (re_sub_drop pat 0 s')
          else if String.prefix pat s
               then re_sub_drop pat (String.length pat - 1) s'
               else String c (re_sub_drop pat 0 s')
      end
  end.

Definition re_sub_literal (pat s : string) : string := re_sub_drop pat 0 s.

(** [re.sub('/.*', '', s)]: from each first slash of a line up to, not
    including, the next newline ([.] does not match a newline). *)
Fixpoint re_sub_slash_rest (in_match : bool) (s : string) : string :=
  match s with
  | EmptyString => EmptyString
  | String c s' =>
      if in_match then
        if Ascii.eqb c "010" then String c (re_sub_slash_rest false s')
        else re_sub_slash_rest true s'
      else if Ascii.eqb c "/" then re_sub_slash_rest true s'
      else String c (re_sub_slash_rest false s')
  end.

Definition is_digit (c : ascii) : bool :=
  let n := nat_of_ascii c in Nat.leb 48 n && Nat.leb n 57.

Fixpoint digits_value (acc : Z) (s : string) : option Z :=
  match s with
  | EmptyString => Some acc
  | String c s' =>
      if is_digit c
      then digits_value (10 * acc + Z.of_nat (nat_of_ascii c - 48))%Z s'
      else None
  end.

(** [int(tok)] on a whitespace-free token: an optional sign and one or more
    decimal digits; [None] stands for [ValueError]. *)
Definition int (tok : string) : option Z :=
  match tok with
  | EmptyString => None
  | String c rest =>
      if Ascii.eqb c "-" then
        if is_empty_str rest then None else option_map Z.opp (digits_value 0 rest)
      else if Ascii.eqb c "+" then
        if is_empty_str rest then None else digits_value 0 rest
      else digits_value 0 tok
  end.

End Py.

(* ===================================================================== *)
(** ** [os.path] (posixpath) *)
(* ===================================================================== *)

Module OsPath.

(** [os.path.join(a, b)] *)
Definition join (a b : string) : string :=
  if Py.startswith b "/" then b
  else if Py.is_empty_str a || Py.endswith_slash a then a +:+ b
  else a +:+ "/" +:+ b.

Definition is_nil {A} (l : list A) : bool :=
  match l with [] => true | _ :: _ => false end.

(** One round of the loop over [comps] in [normpath]. *)
Definition normpath_step (initial_slashes : nat) (new_comps : list string)
    (comp : string) : list string :=
  if String.eqb comp "" || String.eqb comp "." then new_comps
  else if negb (String.eqb comp "..")
          || (Nat.eqb initial_slashes 0 && is_nil new_comps)
          || (negb (is_nil new_comps) && String.eqb (List.last new_comps "") "..")
       then new_comps ++ [comp]
       else if negb (is_nil new_comps) then removelast new_comps
            else new_comps.

Definition initial_slashes (path : string) : nat :=
  if Py.startswith path "/" then
    if Py.startswith path "//" && negb (Py.startswith path "///") then 2 else 1
  else 0.

Fixpoint slashes (n : nat) : string :=
  match n with O => EmptyString | S k => String "/" (slashes k) end.

Definition or_dot (path : string) : string :=
  if Py.is_empty_str path then "." else path.

(** [os.path.normpath(path)] *)
Definition normpath (path : string) : string :=
  if Py.is_empty_str path then "."
  else
    let i := initial_slashes path in
    let comps := fold_left (normpath_step i) (Py.split_on "/" path) [] in
    or_dot (slashes i +:+ Py.join "/" comps).

(** [os.path.dirname(p)]: everything up to the last slash, with trailing
    slashes removed unless the head is made of slashes only. *)
Fixpoint head_to_last_slash (p : string) : string :=
  match p with
  | EmptyString => EmptyString
  | String c p' =>
      if Py.contains "/" p then String c (head_to_last_slash p') else EmptyString
  end.

Fixpoint only_slashes (s : string) : bool :=
  match s with
  | EmptyString => true
  | String c s' => Ascii.eqb c "/" && only_slashes s'
  end.

Fixpoint rstrip_slash (s : string) : string :=
  match s with
  | EmptyString => EmptyString
  | String c s' =>
      let r := rstrip_slash s' in
      if Ascii.eqb c "/" && Py.is_empty_str r then EmptyString else String c r
  end.

Definition dirname (p : string) : string :=
  let head := head_to_last_slash p in
  if negb (Py.is_empty_str head) && negb (only_slashes head)
  then rstrip_slash head else head.

End OsPath.

(* ===================================================================== *)
(** ** Exceptions, and results of fallible calls *)
(* ===================================================================== *)

Inductive exn : Type :=
| DiarizationException (msg : string)
| IndexError
| ValueError
| KeyError (key : string)
| CollaboratorError (descr : string).

Inductive result (A : Type) : Type :=
| Ok (a : A)
| Raise (e : exn).
Arguments Ok {A} a.
Arguments Raise {A} e.

Definition result_bind {A B} (r : result A) (k : A -> result B) : result B :=
  match r with Ok a => k a | Raise e => Raise e end.

Fixpoint result_mapM {A B} (f : A -> result B) (l : list A) : result (list B) :=
  match l with
  | [] => Ok []
  | x :: xs =>
      result_bind (f x) (fun y =>
      result_bind (result_mapM f xs) (fun ys => Ok (y :: ys)))
  end.

Inductive log_entry : Type :=
| Info (msg : string)
| Warning (msg : string).

(** One line of an RTTM file,
    [SPEAKER <reg_name> 1 <start/1000.0> <(end-start)/1000.0> <NA> <NA> <reg_name>_spkr_<idx> <NA>],
    kept as its fields; the times are the window bounds in milliseconds before
    the division by [1000.0]. *)
Record rttm_line : Type := RttmLine {
  rl_reg_name : string;
  rl_start : Z;
  rl_duration : Z;
  rl_idx : nat
}.

(** [range(lo, hi)] *)
Definition range (lo hi : Z) : list Z :=
  map (fun i => (lo + Z.of_nat i)%Z) (seq 0 (Z.to_nat (hi - lo))).

(** The pairs of [np.tril_indices(n, -1)], in numpy's row-major order. *)
Definition tril_pairs (n : nat) : list (nat * nat) :=
  flat_map (fun i => map (fun j => (i, j)) (seq 0 i)) (seq 0 n).

Definition tril_indices (n : Z) : result (list (nat * nat)) :=
  if (n <? 0)%Z then Raise ValueError else Ok (tril_pairs (Z.to_nat n)).

(** [l[i]] for a non-negative index. *)
Definition list_index {A} (l : list A) (i : nat) : result A :=
  match l !! i with
  | Some x => Ok x
  | None => Raise IndexError
  end.

(* ===================================================================== *)
(** ** numpy arrays *)
(* ===================================================================== *)

(** Scores are floating-point numbers in the program; the embedding keeps
    them abstract, with the zero and the addition used by [np.sum] and the
    strict comparison used by [np.argmax]. *)
Class Numeric (real : Type) : Type := {
  rzero : real;
  radd : real -> real -> real;
  rltb : real -> real -> bool
}.

Abbreviation vec real := (list real) (only parsing).
(** A two-dimensional array, as the list of its rows. *)
Abbreviation matrix real := (list (list real)) (only parsing).

(** What a classifier hands back: a one- or a two-dimensional array. *)
Inductive ndarray (real : Type) : Type :=
| Array1 (v : vec real)
| Array2 (m : matrix real).
Arguments Array1 {real} v.
Arguments Array2 {real} m.

Section Numpy.
Context {real : Type} `{Numeric real}.

(** [np.argmax(v)] on a one-dimensional array: a scan that moves to a new
    position only on a strictly greater value, so the first position of the
    maximum is returned; [ValueError] on an empty array. *)
Fixpoint argmax_from (best : real) (best_i : nat) (i : nat) (v : vec real) : nat :=
  match v with
  | [] => best_i
  | x :: v' =>
      if rltb best x then argmax_from x i (S i) v'
      else argmax_from best best_i (S i) v'
  end.

Definition argmax (v : vec real) : result nat :=
  match v with
  | [] => Raise ValueError
  | x :: v' => Ok (argmax_from x 0 1 v')
  end.

Fixpoint vec_add (a b : vec real) : vec real :=
  match a, b with
  | x :: a', y :: b' => radd x y :: vec_add a' b'
  | _, _ => []
  end.

(** [np.sum(a, axis=0)]: the rows of a two-dimensional array are added up,
    first to last; a one-dimensional array sums to a single number, kept
    as an array of one element (its [argmax] is 0 either way). *)
Definition sum_axis0 (a : ndarray real) : vec real :=
  match a with
  | Array1 v => [fold_left radd v rzero]
  | Array2 [] => []
  | Array2 (r :: rs) => fold_left vec_add rs r
  end.

(** [m.T[i]]: column [i] of [m].  An array without rows is taken to have no
    columns. *)
Definition column (m : matrix real) (i : nat) : result (vec real) :=
  match m with
  | [] => Raise IndexError
  | _ => result_mapM (fun r => list_index r i) m
  end.

(** [m[(rows, cols)]] with the index pairs zipped. *)
Definition fancy_index (m : matrix real) (idx : list (nat * nat))
  : result (vec real) :=
  result_mapM (fun ij => result_bind (list_index m (fst ij))
                           (fun r => list_index r (snd ij))) idx.

End Numpy.

(* ===================================================================== *)
(** ** [classifier.py] *)
(* ===================================================================== *)

(** The fitted scikit-learn estimator wrapped by a classifier. *)
Record scikit (real : Type) : Type := mkScikit {
  predict : list (vec real) -> result (vec real);
  predict_proba : list (vec real) -> result (matrix real);
  predict_log_proba : list (vec real) -> result (matrix real)
}.
Arguments predict {real} _ _.
Arguments predict_proba {real} _ _.
Arguments predict_log_proba {real} _ _.

(** The two implementations of the abstract class [Classifier]. *)
Inductive classifier (real : Type) : Type :=
| LogisticRegressionModel (sk : scikit real)
| GMMModel (sk : scikit real).
Arguments LogisticRegressionModel {real} sk.
Arguments GMMModel {real} sk.

Definition result_map {A B} (f : A -> B) (r : result A) : result B :=
  result_bind r (fun a => Ok (f a)).

(** [LogisticRegressionModel.test(x, prob, log_prob)] *)
Definition LogisticRegressionModel_test {real} (sk : scikit real)
    (x : list (vec real)) (prob log_prob : bool) : result (ndarray real) :=
  if log_prob then result_map Array2 (predict_log_proba sk x)
  else if prob then result_map Array2 (predict_proba sk x)
  else result_map Array1 (predict sk x).

(** [GMMModel.test(x, prob)] *)
Definition GMMModel_test {real} (sk : scikit real)
    (x : list (vec real)) (prob : bool) : result (ndarray real) :=
  if prob then result_map Array2 (predict_proba sk x)
  else result_map Array1 (predict sk x).

(** [model.test(x, prob=prob)], dispatched on the class of [model]. *)
Definition test {real} (model : classifier real) (x : list (vec real))
    (prob : bool) : result (ndarray real) :=
  match model with
  | LogisticRegressionModel sk => LogisticRegressionModel_test sk x prob false
  | GMMModel sk => GMMModel_test sk x prob
  end.

(* ===================================================================== *)
(** ** Embedding sets, the object and the world around it *)
(* ===================================================================== *)

(** Modelled from the spec: the classes [Ivec] and [IvecSet] are not among the
    sources.  An embedding is a feature vector with its window bounds; a set
    has a [name], an optional [num_speakers] and its embeddings in order;
    [size()] is their count and [get_all()] their vectors. *)
Record Ivec (real : Type) : Type := mkIvec {
  data : vec real;
  window_start : Z;
  window_end : Z
}.
Arguments mkIvec {real} _ _ _.
Arguments data {real} _.
Arguments window_start {real} _.
Arguments window_end {real} _.

Record IvecSet (real : Type) : Type := mkIvecSet {
  name : string;
  num_speakers : option Z;
  ivecs : list (Ivec real)
}.
Arguments mkIvecSet {real} _ _ _.
Arguments name {real} _.
Arguments num_speakers {real} _.
Arguments ivecs {real} _.

Definition set_size {real} (s : IvecSet real) : nat := length (ivecs s).
Definition get_all {real} (s : IvecSet real) : matrix real := map data (ivecs s).

Definition with_name {real} (s : IvecSet real) (n : string) : IvecSet real :=
  {| name := n; num_speakers := num_speakers s; ivecs := ivecs s |}.
Definition with_num_speakers {real} (s : IvecSet real) (k : Z) : IvecSet real :=
  {| name := name s; num_speakers := Some k; ivecs := ivecs s |}.

(** The attributes of [self] set by the constructors; [norm_ivecs] is the
    cohort loaded by the base class [Normalization]. *)
Record config (real : Type) : Type := mkConfig {
  input_list : string;
  ivecs_dir : string;
  out_dir : string;
  norm_list : option string;
  norm_ivecs : option (list (IvecSet real))
}.
Arguments mkConfig {real} _ _ _ _ _.
Arguments input_list {real} _.
Arguments ivecs_dir {real} _.
Arguments out_dir {real} _.
Arguments norm_list {real} _.
Arguments norm_ivecs {real} _.

(** [seed] is the random state consumed by the clustering. *)
Record world (real seed : Type) : Type := mkWorld {
  self_ivecs : list (IvecSet real);          (* self.ivecs *)
  rng : seed;                                (* random state *)
  log : list log_entry;                      (* loginfo / logwarning *)
  made_dirs : list string;                   (* Tools.mkdir_p *)
  files : gmap string (list rttm_line)       (* files written below out_dir *)
}.
Arguments mkWorld {real seed} _ _ _ _ _.
Arguments self_ivecs {real seed} _.
Arguments rng {real seed} _.
Arguments log {real seed} _.
Arguments made_dirs {real seed} _.
Arguments files {real seed} _.

(** The collaborators that are not among the sources. *)
Class Collaborators (real seed : Type) : Type := {
  (** [sklearnKMeans(n_clusters=n).fit(ivecs).cluster_centers_] *)
  sklearn_kmeans : Z -> matrix real -> seed -> result (matrix real) * seed;
  (** [KMeans(init, n, self.plda).fit(ivecs)] *)
  kmeans_fit : matrix real -> Z -> matrix real -> seed -> result (matrix real) * seed;
  (** [self.plda.score(ivecs, centroids, self.scale, self.shift)] *)
  plda_score : matrix real -> matrix real -> result (matrix real);
  (** [self.s_norm(a, b)] *)
  s_norm : matrix real -> matrix real -> result (matrix real);
  (** [Normalization.get_features(scores)] *)
  get_features : vec real -> result (vec real);
  (** [self.model] *)
  model : classifier real;
  (** [pickle.load] of the file at a path; [None] when opening it raises
      [IOError]. *)
  pickle_at : string -> option (IvecSet real)
}.

(* ===================================================================== *)
(** ** The class [Diarization] *)
(* ===================================================================== *)

Section Diarization.
Context {real seed : Type} `{Numeric real} `{Collaborators real seed}.
Variable cfg : config real.

Definition M (A : Type) : Type := world real seed -> result A * world real seed.

Definition ret {A} (a : A) : M A := fun w => (Ok a, w).
Definition raise {A} (e : exn) : M A := fun w => (Raise e, w).
Definition bind {A B} (c : M A) (k : A -> M B) : M B :=
  fun w => match c w with
           | (Ok a, w') => k a w'
           | (Raise e, w') => (Raise e, w')
           end.
Definition lift {A} (r : result A) : M A := fun w => (r, w).

Notation "x <- c1 ;; c2" := (bind c1 (fun x => c2))
  (at level 62, c1 at next level, right associativity).
Notation "c1 ;;; c2" := (bind c1 (fun _ => c2))
  (at level 62, right associativity).

Definition loginfo (msg : string) : M unit :=
  fun w => (Ok tt, {| self_ivecs := self_ivecs w; rng := rng w;
                      log := log w ++ [Info msg];
                      made_dirs := made_dirs w; files := files w |}).
Definition logwarning (msg : string) : M unit :=
  fun w => (Ok tt, {| self_ivecs := self_ivecs w; rng := rng w;
                      log := log w ++ [Warning msg];
                      made_dirs := made_dirs w; files := files w |}).
Definition get_self_ivecs : M (list (IvecSet real)) :=
  fun w => (Ok (self_ivecs w), w).
Definition with_rng {A} (f : seed -> result A * seed) : M A :=
  fun w => let '(r, g) := f (rng w) in
           (r, {| self_ivecs := self_ivecs w; rng := g; log := log w;
                  made_dirs := made_dirs w; files := files w |}).
(** [Tools.mkdir_p(path)] *)
Definition mkdir_p (path : string) : M unit :=
  fun w => (Ok tt, {| self_ivecs := self_ivecs w; rng := rng w; log := log w;
                      made_dirs := made_dirs w ++ [path]; files := files w |}).
(** [open(path, 'w')]: the file is created or truncated. *)
Definition open_w (path : string) : M unit :=
  fun w => (Ok tt, {| self_ivecs := self_ivecs w; rng := rng w; log := log w;
                      made_dirs := made_dirs w;
                      files := <[path := []]> (files w) |}).
Definition file_write (path : string) (l : rttm_line) : M unit :=
  fun w => (Ok tt, {| self_ivecs := self_ivecs w; rng := rng w; log := log w;
                      made_dirs := made_dirs w;
                      files := <[path := default [] (files w !! path) ++ [l]]> (files w) |}).


(** *** [load_ivecs] *)

Definition int_or_raise (tok : string) : result Z :=
  match Py.int tok with
  | Some z => Ok z
  | None => Raise ValueError
  end.

(** The handler of [except IOError]. *)
Definition no_pickle_file (line : string) : M (option (IvecSet real)) :=
  tok <- lift (list_index (Py.split (Py.rstrip line)) 0) ;;
  logwarning ("[Diarization.load_ivecs] No pickle file found for " +:+ tok +:+ ".") ;;;
  ret None.

(** The body of the loop over the lines of [self.input_list]; [None] when
    nothing is yielded for the line. *)
Definition load_line (raw : string) : M (option (IvecSet real)) :=
  tok0 <- lift (list_index (Py.split (Py.rstrip raw)) 0) ;;
  loginfo ("[Diarization.load_ivecs] Loading pickle file " +:+ tok0 +:+ " ...") ;;;
  let line := Py.rstrip raw in
  if Nat.eqb (length (Py.split line)) 1 then
    match pickle_at (OsPath.join (ivecs_dir cfg) (line +:+ ".pkl")) with
    | Some ivec_set => ret (Some ivec_set)
    | None => no_pickle_file line
    end
  else if Nat.eqb (length (Py.split line)) 2 then
    file_name <- lift (list_index (Py.split line) 0) ;;
    tok1 <- lift (list_index (Py.split line) 1) ;;
    num_spks <- lift (int_or_raise tok1) ;;
    match pickle_at (OsPath.join (ivecs_dir cfg) (file_name +:+ ".pkl")) with
    | Some ivec_set => ret (Some (with_num_speakers ivec_set num_spks))
    | None => no_pickle_file line
    end
  else
    raise (DiarizationException
             ("[Diarization.load_ivecs] Unexpected number of columns in input list "
              +:+ input_list cfg +:+ ".")).

(** [list(self.load_ivecs())] over the lines of the manifest. *)
Fixpoint load_ivecs (lines : list string) : M (list (IvecSet real)) :=
  match lines with
  | [] => ret []
  | raw :: rest =>
      y <- load_line raw ;;
      ys <- load_ivecs rest ;;
      ret (match y with Some s => s :: ys | None => ys end)
  end.

(** *** [get_num_speakers] *)

(** The two clustering calls made for one speaker count. *)
Definition cluster (n : Z) (x : matrix real) : M (matrix real) :=
  init <- with_rng (sklearn_kmeans n x) ;;
  with_rng (kmeans_fit init n x).

(** The loop over [range(min_speakers, max_speakers + 1)], with the lists
    [centroids_list] and [features] it appends to. *)
Fixpoint get_num_speakers_loop (x : matrix real) (candidates : list Z)
    (centroids_list : list (matrix real)) (features : list (vec real))
  : M (list (matrix real) * list (vec real)) :=
  match candidates with
  | [] => ret (centroids_list, features)
  | n :: rest =>
      centroids <- cluster n x ;;
      let centroids_list := centroids_list ++ [centroids] in
      sn <- lift (s_norm centroids centroids) ;;
      idx <- lift (tril_indices n) ;;
      scores <- lift (fancy_index sn idx) ;;
      f <- lift (get_features scores) ;;
      get_num_speakers_loop x rest centroids_list (features ++ [f])
  end.

Definition get_num_speakers (x : matrix real) (min_speakers max_speakers : Z)
  : M (Z * matrix real) :=
  acc <- get_num_speakers_loop x (range min_speakers (max_speakers + 1)) [] [] ;;
  probs <- lift (test model (snd acc) true) ;;
  k <- lift (argmax (sum_axis0 probs)) ;;
  centroids <- lift (list_index (fst acc) k) ;;
  ret ((Z.of_nat k + min_speakers)%Z, centroids).

(** *** [score] *)

Definition score_body (scores_dict : gmap string (matrix real)) (ivecset : IvecSet real)
  : M (gmap string (matrix real)) :=
  let nm := OsPath.normpath (name ivecset) in
  let x := get_all ivecset in
  loginfo ("[Diarization.score] Scoring " +:+ nm +:+ " ...") ;;;
  if Nat.ltb 0 (set_size ivecset) then
    centroids <-
      match num_speakers ivecset with
      | Some n => cluster n x
      | None =>
          match norm_ivecs cfg with
          | Some _ => r <- get_num_speakers x 2 6 ;; ret (snd r)
          | None =>
              raise (DiarizationException
                "[Diarization.score] Can not estimate number of speakers without training set.")
          end
      end ;;
    m <- lift (match norm_list cfg with
               | None => plda_score x centroids
               | Some _ => s_norm x centroids
               end) ;;
    ret (<[nm := m]> scores_dict)
  else
    logwarning ("[Diarization.score] No i-vectors to score in " +:+ name ivecset +:+ ".") ;;;
    ret scores_dict.

Fixpoint score_loop (sets : list (IvecSet real)) (scores_dict : gmap string (matrix real))
  : M (gmap string (matrix real)) :=
  match sets with
  | [] => ret scores_dict
  | ivecset :: rest =>
      d <- score_body scores_dict ivecset ;;
      score_loop rest d
  end.

Definition score : M (gmap string (matrix real)) :=
  sets <- get_self_ivecs ;;
  score_loop sets ∅.

(** *** [dump_rttm], [init_annotations], [get_der] *)

(** [scores[name]] *)
Definition lookup_scores (scores : gmap string (matrix real)) (nm : string)
  : result (matrix real) :=
  match scores !! nm with
  | Some m => Ok m
  | None => Raise (KeyError nm)
  end.

(** [np.argmax(scores[name].T[i])] *)
Definition label (scores : gmap string (matrix real)) (nm : string) (i : nat)
  : result nat :=
  result_bind (lookup_scores scores nm) (fun m =>
  result_bind (column m i) argmax).

(** The rewriting guarded by ['beamformed' in name]. *)
Definition strip_beamformed (nm : string) : string :=
  if Py.contains "beamformed" nm then Py.re_sub_literal "beamformed/" nm else nm.

(** [re.sub('/.*', '', name)] *)
Definition reg_name_of (nm : string) : string := Py.re_sub_slash_rest false nm.

(** [ivecset.name = n] for the set at position [pos] of [self.ivecs]. *)
Definition set_name (pos : nat) (n : string) : M unit :=
  fun w => (Ok tt, {| self_ivecs := alter (fun s => with_name s n) pos (self_ivecs w);
                      rng := rng w; log := log w;
                      made_dirs := made_dirs w; files := files w |}).

Fixpoint write_lines (scores : gmap string (matrix real)) (nm reg_name path : string)
    (i : nat) (l : list (Ivec real)) : M unit :=
  match l with
  | [] => ret tt
  | ivec :: rest =>
      idx <- lift (label scores nm i) ;;
      file_write path (RttmLine reg_name (window_start ivec)
                         (window_end ivec - window_start ivec) idx) ;;;
      write_lines scores nm reg_name path (S i) rest
  end.

(** The body of the loop of [dump_rttm], for the set at position [pos].  The
    sets of [self.ivecs] are distinct objects (each comes from its own
    [pickle.load]), so the set read at [pos] is not changed by the rounds
    before it. *)
Definition dump_body (scores : gmap string (matrix real)) (pos : nat) (ivecset : IvecSet real)
  : M unit :=
  if Nat.ltb 0 (set_size ivecset) then
    let nm := name ivecset in
    (if Py.contains "beamformed" (name ivecset)
     then set_name pos (Py.re_sub_literal "beamformed/" (name ivecset))
     else ret tt) ;;;
    let reg_name := reg_name_of (strip_beamformed (name ivecset)) in
    mkdir_p (OsPath.join (out_dir cfg) (OsPath.dirname nm)) ;;;
    let path := OsPath.join (out_dir cfg) (nm +:+ ".rttm") in
    open_w path ;;;
    write_lines scores nm reg_name path 0 (ivecs ivecset)
  else
    logwarning ("[Diarization.dump_rttm] No i-vectors to dump in " +:+ name ivecset +:+ ".").

Fixpoint dump_loop (scores : gmap string (matrix real)) (pos : nat) (sets : list (IvecSet real))
  : M unit :=
  match sets with
  | [] => ret tt
  | ivecset :: rest =>
      dump_body scores pos ivecset ;;;
      dump_loop scores (S pos) rest
  end.

Definition dump_rttm (scores : gmap string (matrix real)) : M unit :=
  sets <- get_self_ivecs ;;
  dump_loop scores 0 sets.

(** The keys given an empty [Annotation] in both [ref] and [hyp]. *)
Fixpoint init_annotations_loop (sets : list (IvecSet real)) (keys : gset string)
  : gset string :=
  match sets with
  | [] => keys
  | ivecset :: rest =>
      if Nat.ltb 0 (set_size ivecset)
      then init_annotations_loop rest
             ({[ reg_name_of (strip_beamformed (name ivecset)) ]} ∪ keys)
      else init_annotations_loop rest keys
  end.

Definition init_annotations : M (gset string) :=
  sets <- get_self_ivecs ;;
  ret (init_annotations_loop sets ∅).

(** One assignment [hyp[reg_name][Segment(start, end)] = idx], the bounds in
    milliseconds. *)
Record hyp_entry : Type := HypEntry {
  he_reg_name : string;
  he_start : Z;
  he_end : Z;
  he_idx : nat
}.

Fixpoint hyp_lines (scores : gmap string (matrix real)) (keys : gset string)
    (nm reg_name : string) (i : nat) (l : list (Ivec real)) (hyp : list hyp_entry)
  : M (list hyp_entry) :=
  match l with
  | [] => ret hyp
  | ivec :: rest =>
      idx <- lift (label scores nm i) ;;
      (if bool_decide (reg_name ∈ keys) then ret tt
       else raise (KeyError reg_name)) ;;;
      hyp_lines scores keys nm reg_name (S i) rest
        (hyp ++ [HypEntry reg_name (window_start ivec) (window_end ivec) idx])
  end.

Fixpoint get_der_loop (scores : gmap string (matrix real)) (keys : gset string)
    (sets : list (IvecSet real)) (hyp : list hyp_entry) : M (list hyp_entry) :=
  match sets with
  | [] => ret hyp
  | ivecset :: rest =>
      hyp' <-
        (if Nat.ltb 0 (set_size ivecset) then
           hyp_lines scores keys (name ivecset)
             (reg_name_of (strip_beamformed (name ivecset))) 0 (ivecs ivecset) hyp
         else
           logwarning ("[Diarization.get_der] No i-vectors to dump in "
                       +:+ name ivecset +:+ ".") ;;;
           ret hyp) ;;
      get_der_loop scores keys rest hyp'
  end.

(** The part of [get_der] that fills [hyp]: [init_annotations] and the loop
    over [self.ivecs].  The reading of the reference file, the error rate and
    the plot are left out.  The result lists the assignments made to [hyp], in
    order. *)
Definition get_der_hyp (scores : gmap string (matrix real)) : M (list hyp_entry) :=
  keys <- init_annotations ;;
  sets <- get_self_ivecs ;;
  get_der_loop scores keys sets [].

End Diarization.

(* ===================================================================== *)
(** ** Specification vocabulary *)
(* ===================================================================== *)

(** The comparison is irreflexive, transitive and compares every value with
    the two sides of a strict inequality: the order of floats without NaN. *)
Definition strict_weak_order {real : Type} (ltb : real -> real -> bool) : Prop :=
  (forall a, ltb a a = false) /\
  (forall a b c, ltb a b = true -> ltb b c = true -> ltb a c = true) /\
  (forall a b c, ltb a c = true -> ltb a b = true \/ ltb b c = true).

Section Specs.
Context {real seed : Type} `{Numeric real} `{Collaborators real seed}.

(** Position [k] holds a value that none exceeds, and every earlier value
    is strictly smaller. *)
Definition is_first_max (v : vec real) (k : nat) : Prop :=
  exists m, v !! k = Some m /\
    (forall j x, v !! j = Some x -> rltb m x = false) /\
    (forall j x, j < k -> v !! j = Some x -> rltb x m = true).

(** [v !! j] is a maximum of [v]. *)
Definition attains_max (v : vec real) (j : nat) : Prop :=
  exists x, v !! j = Some x /\ forall j' y, v !! j' = Some y -> rltb x y = false.

(** Entry [(i, j)] of [m]. *)
Definition entry (m : matrix real) (ij : nat * nat) : option real :=
  match m !! fst ij with
  | Some r => r !! snd ij
  | None => None
  end.

(** One pass per candidate count, in order: cluster to [n] centroids, score
    the centroids against themselves, take the entries below the diagonal,
    and turn them into a feature vector with [feat].  The relation collects
    the centroids and the feature vectors and threads the world. *)
Inductive candidate_passes (feat : vec real -> result (vec real)) (x : matrix real)
  : list Z -> world real seed -> list (matrix real) -> list (vec real)
    -> world real seed -> Prop :=
| passes_nil w : candidate_passes feat x [] w [] [] w
| passes_cons n rest w centroids w1 sn tril f cl fs w2 :
    cluster n x w = (Ok centroids, w1) ->
    s_norm centroids centroids = Ok sn ->
    (0 <= n)%Z ->
    Forall2 (fun ij v => entry sn ij = Some v) (tril_pairs (Z.to_nat n)) tril ->
    feat tril = Ok f ->
    candidate_passes feat x rest w1 cl fs w2 ->
    candidate_passes feat x (n :: rest) w (centroids :: cl) (f :: fs) w2.


End Specs.


(** A path component that [normpath] keeps as it is. *)
Definition plain_comp (c : string) : Prop :=
  c <> "" /\ c <> "." /\ c <> ".." /\ Py.contains "/" c = false.

(** The components [normpath] ends with: some [..] first, none of them
    when the path is absolute, then plain components. *)
Definition normalized_comps (i : nat) (l : list string) : Prop :=
  exists n rest, l = repeat ".." n ++ rest /\ Forall plain_comp rest /\
                 (i <> 0 -> n = 0).

(** The world after more log entries. *)
Definition logged {real seed} (w : world real seed) (es : list log_entry)
  : world real seed :=
  {| self_ivecs := self_ivecs w; rng := rng w; log := log w ++ es;
     made_dirs := made_dirs w; files := files w |}.

(** The content of the file at [path], empty when there is none. *)
Definition file_content {real seed} (w : world real seed) (path : string)
  : list rttm_line :=
  default [] (files w !! path).

(** The messages of [score] and [dump_rttm]. *)
Definition msg_scoring (nm : string) : string :=
  "[Diarization.score] Scoring " +:+ nm +:+ " ...".
Definition msg_nothing_to_score (nm : string) : string :=
  "[Diarization.score] No i-vectors to score in " +:+ nm +:+ ".".
Definition msg_nothing_to_dump (nm : string) : string :=
  "[Diarization.dump_rttm] No i-vectors to dump in " +:+ nm +:+ ".".
Definition msg_loading (tok : string) : string :=
  "[Diarization.load_ivecs] Loading pickle file " +:+ tok +:+ " ...".
Definition msg_columns (input_list : string) : string :=
  "[Diarization.load_ivecs] Unexpected number of columns in input list "
  +:+ input_list +:+ ".".
Definition msg_cannot_estimate : string :=
  "[Diarization.score] Can not estimate number of speakers without training set.".

(** The rewriting that [dump_rttm] leaves in [self.ivecs], for one set. *)
Definition renamed {real} (s : IvecSet real) : IvecSet real :=
  if Nat.ltb 0 (set_size s) && Py.contains "beamformed" (name s)
  then with_name s (Py.re_sub_literal "beamformed/" (name s))
  else s.

(** The same without regard to the size of the set. *)
Definition renamed_any_size {real} (s : IvecSet real) : IvecSet real :=
  if Py.contains "beamformed" (name s)
  then with_name s (Py.re_sub_literal "beamformed/" (name s))
  else s.

(** C9 as it is stated: after [dump_rttm], every set whose name contains
    [beamformed] carries the rewritten name, and nothing else has changed in
    [self.ivecs]. *)
Definition renames_every_beamformed {real seed} `{Numeric real}
    (cfg : config real) (scores : gmap string (list (list real)))
    (w : world real seed) : Prop :=
  forall w', dump_rttm cfg scores w = (Ok tt, w') ->
             self_ivecs w' = map renamed_any_size (self_ivecs w).

(* ===================================================================== *)
(** ** Further methods: [get_ivec], the reference loop of [get_der], [plot_der] *)
(* ===================================================================== *)

(** [float(s)]; [None] stands for [ValueError]. *)
Class FloatSyntax (real : Type) : Type := {
  float_of_str : string -> option real
}.

(** One assignment [ref[name][Segment(start, end)] = speaker]. *)
Record ref_entry (real : Type) : Type := RefEntry {
  re_name : string;
  re_start : real;
  re_end : real;
  re_speaker : string
}.
Arguments RefEntry {real} _ _ _ _.
Arguments re_name {real} _.
Arguments re_start {real} _.
Arguments re_end {real} _.
Arguments re_speaker {real} _.

(** [sorted(l)], for the comparison [ltb] of the elements: a stable sort,
    each element going behind the ones it is not smaller than. *)
Fixpoint sorted_insert {A} (ltb : A -> A -> bool) (x : A) (l : list A) : list A :=
  match l with
  | [] => [x]
  | y :: l' => if ltb x y then x :: y :: l' else y :: sorted_insert ltb x l'
  end.

Definition sorted {A} (ltb : A -> A -> bool) (l : list A) : list A :=
  fold_left (fun acc x => sorted_insert ltb x acc) l [].

Section FurtherMethods.
Context {real seed : Type} `{Numeric real} `{Collaborators real seed}
        `{FloatSyntax real}.

(** The loop of [get_ivec]; [printed] collects the lines of [print ii.name]. *)
Fixpoint get_ivec_loop (nm : string) (sets : list (IvecSet real))
    (printed : list string) : list string * result (IvecSet real) :=
  match sets with
  | [] =>
      (printed,
       Raise (DiarizationException
                ("[Diarization.get_ivec] Name of the set not found - " +:+ nm +:+ ".")))
  | ii :: rest =>
      let printed := printed ++ [name ii] in
      if String.eqb nm (name ii) then (printed, Ok ii)
      else get_ivec_loop nm rest printed
  end.

(** [get_ivec(name)]: what is printed, and what is returned or raised. *)
Definition get_ivec (nm : string) (w : world real seed)
  : list string * result (IvecSet real) :=
  get_ivec_loop nm (self_ivecs w) [].

(** The body of the loop of [get_der] over the lines of the reference file:
    the nine fields, [ref[name]], then the two bounds. *)
Definition ref_line (keys : gset string) (line : string)
  : result (ref_entry real) :=
  match Py.split line with
  | [_; nm; _; start; duration; _; _; speaker; _] =>
      if bool_decide (nm ∈ keys) then
        match float_of_str start, float_of_str duration with
        | Some b, Some d => Ok (RefEntry nm b (radd b d) speaker)
        | _, _ => Raise ValueError
        end
      else Raise (KeyError nm)
  | _ => Raise ValueError
  end.

Fixpoint get_der_ref_loop (keys : gset string) (lines : list string)
    (ref : list (ref_entry real)) : result (list (ref_entry real)) :=
  match lines with
  | [] => Ok ref
  | line :: rest =>
      result_bind (ref_line keys line) (fun e =>
      get_der_ref_loop keys rest (ref ++ [e]))
  end.

(** [get_der] up to the two annotations: [init_annotations], the loop over
    the lines of the reference file, then the loop over [self.ivecs]. *)
Definition get_der_annotations (ref_lines : list string)
    (scores : gmap string (list (list real)))
  : @M real seed (list (ref_entry real) * list hyp_entry) :=
  bind init_annotations (fun keys =>
  bind (lift (get_der_ref_loop keys ref_lines [])) (fun ref =>
  bind get_self_ivecs (fun sets =>
  bind (get_der_loop scores keys sets []) (fun hyp =>
  ret (ref, hyp))))).

(** The comparison of the tuples [(name, value)]. *)
Definition pair_ltb (a b : string * real) : bool :=
  if String.eqb (fst a) (fst b) then rltb (snd a) (snd b)
  else String.ltb (fst a) (fst b).

(** [plot_der(names, values)]: the values and the names it prints and
    plots, [values] in the order of the sorted pairs and [names] sorted. *)
Definition plot_der (names : list string) (values : list real)
  : list real * list string :=
  (map snd (sorted pair_ltb (zip names values)), sorted String.ltb names).

End FurtherMethods.

(** *** Vocabulary for the further properties *)

Fixpoint all_space (s : string) : bool :=
  match s with
  | EmptyString => true
  | String c s' => Py.isspace c && all_space s'
  end.

Definition msg_no_pickle (tok : string) : string :=
  "[Diarization.load_ivecs] No pickle file found for " +:+ tok +:+ ".".
Definition msg_not_found (nm : string) : string :=
  "[Diarization.get_ivec] Name of the set not found - " +:+ nm +:+ ".".

(** A set that [load_ivecs] yields is one of the pickled sets, as it was
    stored or with its [num_speakers] assigned. *)
Definition from_pickle {real seed} `{Collaborators real seed}
    (s : IvecSet real) : Prop :=
  exists path s0, pickle_at path = Some s0 /\
    (s = s0 \/ exists k, s = with_num_speakers s0 k).

(** The path of the RTTM file of a set. *)
Definition rttm_path {real} (cfg : config real) (nm : string) : string :=
  OsPath.join (out_dir cfg) (nm +:+ ".rttm").

Definition nonempty_set {real} (s : IvecSet real) : bool := Nat.ltb 0 (set_size s).

(** What a run of [dump_rttm] over the sets logs. *)
Definition dump_log {real} (sets : list (IvecSet real)) : list log_entry :=
  flat_map (fun s => if nonempty_set s then []
                     else [Warning (msg_nothing_to_dump (name s))]) sets.

Definition msg_nothing_for_der (nm : string) : string :=
  "[Diarization.get_der] No i-vectors to dump in " +:+ nm +:+ ".".

(** What the loop of [get_der] over the sets logs, when it returns. *)
Definition der_log {real} (sets : list (IvecSet real)) : list log_entry :=
  flat_map (fun s => if nonempty_set s then []
                     else [Warning (msg_nothing_for_der (name s))]) sets.

(** Two worlds that differ in the random state at most. *)
Definition same_but_rng {real seed} (w w' : world real seed) : Prop :=
  self_ivecs w' = self_ivecs w /\ log w' = log w /\
  made_dirs w' = made_dirs w /\ files w' = files w.

(** Two worlds that differ in the random state and the log at most. *)
Definition same_but_rng_log {real seed} (w w' : world real seed) : Prop :=
  self_ivecs w' = self_ivecs w /\ made_dirs w' = made_dirs w /\ files w' = files w.

(* ===================================================================== *)
(** ** A small concrete instance, to run the definitions on *)
(* ===================================================================== *)

Module Demo.

Definition Z_numeric : Numeric Z :=
  {| rzero := 0%Z; radd := Z.add; rltb := Z.ltb |}.

Definition dot (u v : vec Z) : Z :=
  fold_left Z.add (zip_with Z.mul u v) 0%Z.

(** Seeding: the first [n] embeddings, after a rotation by the random
    state, which is then advanced. *)
Definition demo_sklearn (n : Z) (x : matrix Z) (g : nat)
  : result (matrix Z) * nat :=
  if (n <=? 0)%Z || (Z.of_nat (length x) <? n)%Z then (Raise ValueError, g)
  else (Ok (take (Z.to_nat n) (rotate g x)), S g).

Definition demo_sk : scikit Z :=
  {| predict := fun fs => Ok (map (fun _ => 3%Z) fs);
     predict_proba :=
       fun fs => Ok (map (fun f => [1; 4; Z.of_nat (length f) + 2; 2; 1]%Z) fs);
     predict_log_proba := fun fs => Ok (map (fun _ => [-4; -1; -1; -2; -4]%Z) fs) |}.

Definition rec1 : IvecSet Z :=
  mkIvecSet "rec1" None
    [mkIvec [1; 0]%Z 0 1000; mkIvec [0; 1]%Z 1000 2000; mkIvec [2; 1]%Z 2000 3000;
     mkIvec [1; 3]%Z 3000 4000; mkIvec [4; 0]%Z 4000 5000; mkIvec [0; 5]%Z 5000 6000].
Definition rec2 : IvecSet Z :=
  mkIvecSet "a//rec2" None [mkIvec [1; 0]%Z 0 1500; mkIvec [0; 2]%Z 1500 2500].
Definition rec3 : IvecSet Z :=
  mkIvecSet "beamformed/rec3" None [mkIvec [3; 1]%Z 0 500; mkIvec [1; 1]%Z 500 900].
Definition empty_set : IvecSet Z := mkIvecSet "beamformed/empty" None [].

Definition demo_pickle (path : string) : option (IvecSet Z) :=
  if String.eqb path "ivecs/rec1.pkl" then Some rec1
  else if String.eqb path "ivecs/a//rec2.pkl" then Some rec2
  else if String.eqb path "ivecs/beamformed/rec3.pkl" then Some rec3
  else if String.eqb path "ivecs/beamformed/empty.pkl" then Some empty_set
  else None.

Definition collab : Collaborators Z nat :=
  {| sklearn_kmeans := demo_sklearn;
     kmeans_fit := fun init _ _ g => (Ok init, g);
     plda_score := fun x c => Ok (map (fun cv => map (fun v => dot v cv) x) c);
     s_norm := fun a b => Ok (map (fun bv => map (fun av => dot av bv) a) b);
     get_features := fun v => Ok [fold_left Z.add v 0%Z; Z.of_nat (length v)];
     model := LogisticRegressionModel demo_sk;
     pickle_at := demo_pickle |}.

(** With a cohort, and without one. *)
Definition cfg_norm : config Z :=
  mkConfig "list.txt" "ivecs" "out" (Some "norm.txt") (Some [rec1]).
Definition cfg_raw : config Z :=
  mkConfig "list.txt" "ivecs" "out" None None.

Definition world0 (sets : list (IvecSet Z)) : world Z nat :=
  mkWorld sets 0 [] [] ∅.

(** The embeddings of [rec1], the centroids found for three speakers, and
    the world after the five clusterings of an estimation. *)
Definition x1 : list (list Z) := get_all rec1.
Definition centroids3 : list (list Z) := [[0; 1]; [2; 1]; [1; 3]]%Z.
Definition world5 : world Z nat := mkWorld [] 5 [] [] ∅.

(** A score dictionary for [rec3], and the world after [dump_rttm] has run
    with it over [rec3] and the empty set. *)
Definition scores3 : gmap string (list (list Z)) :=
  {[ "beamformed/rec3" := [[3; 1]; [1; 1]]%Z ]}.
Definition world_dumped : world Z nat :=
  mkWorld [with_name rec3 "rec3"; empty_set] 0
    [Warning "[Diarization.dump_rttm] No i-vectors to dump in beamformed/empty."]
    ["out/beamformed"]
    {[ "out/beamformed/rec3.rttm" :=
         [RttmLine "rec3" 0 500 0; RttmLine "rec3" 500 400 0] ]}.

End Demo.

(** More of the same, for the further methods. *)
Module Demo2.

(** Numbers in the reference file are read as integers. *)
Definition Z_float : FloatSyntax Z := {| float_of_str := Py.int |}.

(** An estimator that knows seven classes and always prefers the last. *)
Definition wide_sk : scikit Z :=
  {| predict := fun fs => Ok (map (fun _ => 8%Z) fs);
     predict_proba := fun fs => Ok (map (fun _ => [0; 0; 0; 0; 0; 0; 9]%Z) fs);
     predict_log_proba := fun fs => Ok (map (fun _ => [-9; -9; -9; -9; -9; -9; 0]%Z) fs) |}.

Definition collab_wide : Collaborators Z nat :=
  {| sklearn_kmeans := Demo.demo_sklearn;
     kmeans_fit := fun init _ _ g => (Ok init, g);
     plda_score := fun x c => Ok (map (fun cv => map (fun v => Demo.dot v cv) x) c);
     s_norm := fun a b => Ok (map (fun bv => map (fun av => Demo.dot av bv) a) b);
     get_features := fun v => Ok [fold_left Z.add v 0%Z; Z.of_nat (length v)];
     model := GMMModel wide_sk;
     pickle_at := Demo.demo_pickle |}.

(** The embeddings of [rec2]: two of them, too few for three clusters. *)
Definition x2 : list (list Z) := get_all Demo.rec2.

(** A set with an absolute name, and scores for it. *)
Definition rec_abs : IvecSet Z := mkIvecSet "/data/rec9" None [mkIvec [1]%Z 0 10].
Definition scores_abs : gmap string (list (list Z)) := {[ "/data/rec9" := [[1]]%Z ]}.

Definition newline : string := String "010" "".

(** Lines of a reference file. *)
Definition ref_rec3 : string := "SPEAKER rec3 1 10 5 <NA> <NA> spkA <NA>".
Definition ref_other : string := "SPEAKER other 1 10 5 <NA> <NA> spkB <NA>".
Definition ref_short : string := "SPEAKER rec3 1 10".

End Demo2.

(** An instance whose feature vectors are the ones of the specification, a
    score matrix that is not square, and a recording that is there twice:
    under its own name and under the [beamformed] directory. *)
Module Demo3.



(** Scores of three centroids (the rows) for two embeddings (the columns). *)
Definition scores_tall : gmap string (list (list Z)) :=
  {[ "rec4" := [[1; 5]; [0; 2]; [4; 1]]%Z ]}.

Definition rec3_beamformed : IvecSet Z := with_num_speakers Demo.rec3 2.
Definition rec3_plain : IvecSet Z := with_name (with_num_speakers Demo.rec3 2) "rec3".

End Demo3.

(* ===================================================================== *)
(** ** The string and path primitives on examples *)
(* ===================================================================== *)

Example normpath_ex1 : OsPath.normpath "a//b/./c/../d/" = "a/b/d".
Proof. reflexivity. Qed.
Example normpath_ex2 : OsPath.normpath "//a/../../b" = "//b".
Proof. reflexivity. Qed.
Example normpath_ex3 : OsPath.normpath "../../a/.." = "../..".
Proof. reflexivity. Qed.
Example normpath_ex4 : OsPath.normpath "///a" = "/a".
Proof. reflexivity. Qed.
Example split_ex1 : Py.split "  rec1   3 " = ["rec1"; "3"].
Proof. reflexivity. Qed.
Example rstrip_ex1 : Py.rstrip (" a b " +:+ String "010" "") = " a b".
Proof. reflexivity. Qed.
Example re_sub_ex1 :
  Py.re_sub_literal "beamformed/" "x/beamformed/y/beamformed/z" = "x/y/z".
Proof. reflexivity. Qed.
Example re_sub_ex2 : Py.re_sub_slash_rest false "rec/a/b" = "rec".
Proof. reflexivity. Qed.
Example dirname_ex1 : OsPath.dirname "a/b//c" = "a/b".
Proof. reflexivity. Qed.
Example dirname_ex2 : OsPath.dirname "/c" = "/".
Proof. reflexivity. Qed.
Example dirname_ex3 : OsPath.dirname "c" = "".
Proof. reflexivity. Qed.
Example int_ex1 : Py.int "-12" = Some (-12)%Z.
Proof. reflexivity. Qed.

(* ===================================================================== *)
(** ** Theory: Python lists and numpy *)
(* ===================================================================== *)

Lemma result_bind_Ok {A B} (r : result A) (k : A -> result B) b :
  result_bind r k = Ok b -> exists a, r = Ok a /\ k a = Ok b.
Proof. destruct r as [a|e]; simpl; intros E; [eauto | discriminate]. Qed.

Lemma list_index_Ok {A} (l : list A) i x :
  list_index l i = Ok x <-> l !! i = Some x.
Proof.
  unfold list_index. destruct (l !! i); split; intros E;
    inversion E; subst; reflexivity.
Qed.

Lemma result_mapM_Ok {A B} (f : A -> result B) l ys :
  result_mapM f l = Ok ys -> Forall2 (fun x y => f x = Ok y) l ys.
Proof.
  revert ys. induction l as [|x xs IH]; simpl; intros ys E.
  - inversion E. constructor.
  - apply result_bind_Ok in E as (y & Ey & E).
    apply result_bind_Ok in E as (ys' & Eys & E).
    inversion E; subst. constructor; auto.
Qed.

Lemma range_length lo hi : length (range lo hi) = Z.to_nat (hi - lo).
Proof. unfold range. rewrite length_map, length_seq. reflexivity. Qed.

Lemma range_lookup lo hi k n :
  range lo hi !! k = Some n <-> (n = lo + Z.of_nat k /\ lo + Z.of_nat k < hi)%Z.
Proof.
  unfold range. rewrite list_lookup_fmap. split.
  - intros E. destruct (seq 0 (Z.to_nat (hi - lo)) !! k) as [i|] eqn:Ei;
      simpl in E; [|discriminate].
    apply lookup_seq in Ei as [-> Hlt]. inversion E; subst. lia.
  - intros [-> Hlt].
    assert (E : seq 0 (Z.to_nat (hi - lo)) !! k = Some k).
    { apply lookup_seq. lia. }
    rewrite E. reflexivity.
Qed.

Example range_default : range 2 (6 + 1) = [2; 3; 4; 5; 6]%Z.
Proof. reflexivity. Qed.

(** [tril_pairs n] lists exactly the positions strictly below the diagonal
    of an [n] by [n] array, each once. *)
Lemma tril_pairs_spec n i j : (i, j) ∈ tril_pairs n <-> j < i < n.
Proof.
  unfold tril_pairs. rewrite list_elem_of_In, in_flat_map. split.
  - intros (i' & Hi' & Hin). apply in_map_iff in Hin as (j' & E & Hj').
    inversion E; subst. apply in_seq in Hi', Hj'. lia.
  - intros Hij. exists i. split; [apply in_seq; lia|].
    apply in_map_iff. exists j. split; [reflexivity | apply in_seq; lia].
Qed.

Lemma tril_pairs_NoDup n : NoDup (tril_pairs n).
Proof.
  unfold tril_pairs.
  assert (G : forall l : list nat, NoDup l ->
            NoDup (flat_map (fun i => map (fun j => (i, j)) (seq 0 i)) l)).
  { induction l as [|a l IH]; simpl; intros Hnd; [constructor|].
    apply NoDup_cons in Hnd as [Ha Hl].
    apply NoDup_app. split; [|split].
    - apply NoDup_fmap_2; [intros ? ? E; congruence | apply NoDup_seq].
    - intros [i j] H1 H2. apply list_elem_of_In, in_map_iff in H1 as (j' & E & _).
      inversion E; subst.
      apply list_elem_of_In, in_flat_map in H2 as (i' & Hi' & Hin).
      apply in_map_iff in Hin as (j'' & E' & _). inversion E'; subst.
      apply Ha, list_elem_of_In, Hi'.
    - auto. }
  apply G, NoDup_seq.
Qed.

Example tril_pairs_4 :
  tril_pairs 4 = [(1, 0); (2, 0); (2, 1); (3, 0); (3, 1); (3, 2)].
Proof. reflexivity. Qed.

Section NumpyTheory.
Context {real : Type} `{Numeric real}.

Lemma fancy_index_Ok (m : matrix real) idx v :
  fancy_index m idx = Ok v -> Forall2 (fun ij x => entry m ij = Some x) idx v.
Proof.
  intros E. apply result_mapM_Ok in E.
  eapply Forall2_impl; [exact E|]. intros ij x Ex. simpl in Ex.
  apply result_bind_Ok in Ex as (r & Er & Ex).
  apply list_index_Ok in Er, Ex. unfold entry. rewrite Er. exact Ex.
Qed.

Lemma argmax_from_bound (v : vec real) best bi i :
  bi < i -> argmax_from best bi i v < i + length v.
Proof.
  revert best bi i. induction v as [|x v IH]; simpl; intros best bi i Hlt; [lia|].
  destruct (rltb best x).
  - specialize (IH x i (S i)). lia.
  - specialize (IH best bi (S i)). lia.
Qed.

Lemma argmax_bound (v : vec real) k : argmax v = Ok k -> k < length v.
Proof.
  destruct v as [|x v]; simpl; intros E; inversion E; subst.
  pose proof (argmax_from_bound v x 0 1). lia.
Qed.

Hypothesis Hord : strict_weak_order (rltb (real := real)).

Lemma argmax_from_first_max (v pre : vec real) best bi :
  pre !! bi = Some best ->
  (forall j x, pre !! j = Some x -> rltb best x = false) ->
  (forall j x, j < bi -> pre !! j = Some x -> rltb x best = true) ->
  is_first_max (pre ++ v) (argmax_from best bi (length pre) v).
Proof.
  destruct Hord as (Hirr & Htrans & Hcot).
  revert pre best bi. induction v as [|x v IH]; intros pre best bi Hb Hmax Hfirst.
  - simpl. rewrite app_nil_r. exists best. auto.
  - simpl. pose proof (lookup_lt_Some _ _ _ Hb) as Hbi.
    replace (pre ++ x :: v) with ((pre ++ [x]) ++ v) by (rewrite <- app_assoc; reflexivity).
    replace (S (length pre)) with (length (pre ++ [x])) by (rewrite length_app; simpl; lia).
    destruct (rltb best x) eqn:Ebx.
    + replace (length pre) with (length pre + 0) at 1 by lia.
      assert (Hsnoc : forall j y, (pre ++ [x]) !! j = Some y ->
                (j < length pre /\ pre !! j = Some y) \/ (j = length pre /\ y = x)).
      { intros j y Ey. destruct (decide (j < length pre)) as [Hj|Hj].
        - left. rewrite lookup_app_l in Ey by exact Hj. auto.
        - right. rewrite lookup_app_r in Ey by lia.
          destruct (j - length pre) as [|d] eqn:Ed; simpl in Ey; [|discriminate].
          inversion Ey. split; [lia | reflexivity]. }
      replace (length pre + 0) with (length pre) by lia.
      apply IH.
      * rewrite lookup_app_r by lia. rewrite Nat.sub_diag. reflexivity.
      * intros j y Ey. apply Hsnoc in Ey as [[Hj Ey]|[-> ->]]; [|apply Hirr].
        destruct (rltb x y) eqn:Exy; [|reflexivity].
        pose proof (Hmax _ _ Ey) as C. rewrite (Htrans _ _ _ Ebx Exy) in C. discriminate C.
      * intros j y Hj Ey. rewrite lookup_app_l in Ey by exact Hj.
        destruct (Hcot best y x Ebx) as [E|E]; [|exact E].
        rewrite (Hmax _ _ Ey) in E. discriminate.
    + apply IH.
      * rewrite lookup_app_l by exact Hbi. exact Hb.
      * intros j y Ey. destruct (decide (j < length pre)) as [Hj|Hj].
        -- rewrite lookup_app_l in Ey by exact Hj. eauto.
        -- rewrite lookup_app_r in Ey by lia.
           destruct (j - length pre) as [|d]; simpl in Ey; [|discriminate].
           inversion Ey; subst. exact Ebx.
      * intros j y Hj Ey. rewrite lookup_app_l in Ey by lia. eauto.
Qed.

(** [np.argmax] returns the first position of the maximum. *)
Lemma argmax_first_max (v : vec real) k : argmax v = Ok k -> is_first_max v k.
Proof.
  destruct Hord as (Hirr & _ & _).
  destruct v as [|x v]; simpl; intros E; inversion E; subst.
  apply (argmax_from_first_max v [x] x 0).
  - reflexivity.
  - intros [|j] y Ey; simpl in Ey; [|discriminate]. inversion Ey; subst. apply Hirr.
  - intros j y Hj. lia.
Qed.

(** Among the positions of the maximum, the first one is the lowest. *)
Lemma first_max_lowest (v : vec real) k j :
  is_first_max v k -> attains_max v j -> k <= j.
Proof.
  intros (m & Ek & Hmax & Hfirst) (x & Ej & Hx).
  destruct (decide (k <= j)) as [Hle|Hgt]; [exact Hle|].
  assert (Hlt : j < k) by lia.
  pose proof (Hfirst _ _ Hlt Ej) as C. rewrite (Hx _ _ Ek) in C. discriminate C.
Qed.

Lemma first_max_attains (v : vec real) k : is_first_max v k -> attains_max v k.
Proof. intros (m & Ek & Hmax & _). exists m. eauto. Qed.

End NumpyTheory.

(* ===================================================================== *)
(** ** Theory: [os.path.normpath] is idempotent *)
(* ===================================================================== *)

Section NormpathTheory.

Local Ltac str_neq :=
  match goal with
  | |- String.eqb ?a ?b = false => apply String.eqb_neq; congruence
  end.

Lemma prefix_cons a s1 b s2 :
  String.prefix (String a s1) (String b s2)
  = if ascii_dec a b then String.prefix s1 s2 else false.
Proof. reflexivity. Qed.

Lemma prefix_slash_iff a x :
  String.prefix "/" (String a x) = false <-> Ascii.eqb a "/" = false.
Proof.
  rewrite prefix_cons. destruct (ascii_dec "/" a) as [<-|Hne].
  - destruct x; split; discriminate.
  - split; [|reflexivity]. intros _. apply Ascii.eqb_neq. congruence.
Qed.

Lemma contains_slash_cons a c :
  Py.contains "/" (String a c) = false ->
  Ascii.eqb a "/" = false /\ Py.contains "/" c = false.
Proof.
  intros E. change (Py.contains "/" (String a c))
    with (String.prefix "/" (String a c) || Py.contains "/" c) in E.
  apply orb_false_iff in E as [E1 E2]. split; [|exact E2].
  apply (prefix_slash_iff a c), E1.
Qed.

Lemma split_on_nonempty sep s : Py.split_on sep s <> [].
Proof.
  destruct s as [|c s]; simpl; [discriminate|].
  destruct (Ascii.eqb c sep); [discriminate|].
  destruct (Py.split_on sep s); discriminate.
Qed.

Lemma split_on_slashfree s :
  Forall (fun c => Py.contains "/" c = false) (Py.split_on "/" s).
Proof.
  induction s as [|a s IH]; simpl.
  - repeat constructor.
  - destruct (Ascii.eqb a "/") eqn:Ea.
    + constructor; [reflexivity | exact IH].
    + destruct (Py.split_on "/" s) as [|comp comps] eqn:Es.
      * destruct (split_on_nonempty _ _ Es).
      * inversion IH; subst. constructor; [|assumption].
        change (String.prefix "/" (String a comp) || Py.contains "/" comp = false).
        apply orb_false_iff. split; [|assumption].
        apply prefix_slash_iff, Ea.
Qed.

Lemma split_on_single c :
  Py.contains "/" c = false -> Py.split_on "/" c = [c].
Proof.
  induction c as [|a c IH]; intros E; [reflexivity|].
  apply contains_slash_cons in E as [Ea Ec]. simpl. rewrite Ea, (IH Ec).
  reflexivity.
Qed.

Lemma split_on_app_sep c rest :
  Py.contains "/" c = false ->
  Py.split_on "/" (c +:+ String "/" rest) = c :: Py.split_on "/" rest.
Proof.
  induction c as [|a c IH]; intros E; [reflexivity|].
  apply contains_slash_cons in E as [Ea Ec]. simpl. rewrite Ea, (IH Ec).
  reflexivity.
Qed.

Lemma split_on_join l :
  l <> [] -> Forall (fun c => Py.contains "/" c = false) l ->
  Py.split_on "/" (Py.join "/" l) = l.
Proof.
  induction l as [|c l IH]; intros Hne Hl; [congruence|].
  inversion Hl as [|? ? Hc Hl']; subst. destruct l as [|c2 l].
  - simpl. apply split_on_single, Hc.
  - change (Py.join "/" (c :: c2 :: l))
      with (c +:+ String "/" (Py.join "/" (c2 :: l))).
    rewrite split_on_app_sep by exact Hc. rewrite IH; [reflexivity|discriminate|assumption].
Qed.

Lemma plain_comp_step i st c :
  plain_comp c -> OsPath.normpath_step i st c = st ++ [c].
Proof.
  intros (H1 & H2 & H3 & _). unfold OsPath.normpath_step.
  apply String.eqb_neq in H1, H2, H3. rewrite H1, H2, H3. reflexivity.
Qed.

Lemma fold_plain i rest st :
  Forall plain_comp rest ->
  fold_left (OsPath.normpath_step i) rest st = st ++ rest.
Proof.
  intros Hr. revert st. induction Hr as [|c rest Hc _ IH]; intros st; simpl.
  - rewrite app_nil_r. reflexivity.
  - rewrite (plain_comp_step _ _ _ Hc), IH, <- app_assoc. reflexivity.
Qed.

Lemma repeat_snoc {A} (a : A) n : repeat a n ++ [a] = repeat a (S n).
Proof. induction n; simpl; [reflexivity | rewrite IHn; reflexivity]. Qed.

Lemma last_repeat {A} (a d : A) n : List.last (repeat a (S n)) d = a.
Proof. rewrite <- repeat_snoc. apply last_last. Qed.

Lemma dotdot_step_after_dotdot i st :
  st <> [] -> List.last st "" = ".." ->
  OsPath.normpath_step i st ".." = st ++ [".."].
Proof.
  intros Hne Hl. unfold OsPath.normpath_step. rewrite Hl.
  destruct st; [congruence|]. simpl. rewrite orb_true_r. reflexivity.
Qed.

Lemma dotdot_step_on_dots n :
  OsPath.normpath_step 0 (repeat ".." n) ".." = repeat ".." (S n).
Proof.
  destruct n as [|n]; [reflexivity|].
  rewrite dotdot_step_after_dotdot.
  - apply repeat_snoc.
  - discriminate.
  - apply last_repeat.
Qed.

Lemma fold_dots n m :
  fold_left (OsPath.normpath_step 0) (repeat ".." n) (repeat ".." m)
  = repeat ".." (m + n).
Proof.
  revert m. induction n as [|n IH]; intros m; simpl.
  - rewrite Nat.add_0_r. reflexivity.
  - rewrite dotdot_step_on_dots, IH. f_equal. lia.
Qed.

Lemma fold_normalized i l :
  normalized_comps i l -> fold_left (OsPath.normpath_step i) l [] = l.
Proof.
  intros (n & rest & -> & Hr & Hn). rewrite fold_left_app.
  destruct (Nat.eq_dec i 0) as [->|Hi].
  - pose proof (fold_dots n 0) as E. simpl in E. rewrite E. apply fold_plain, Hr.
  - rewrite (Hn Hi). simpl. apply (fold_plain i rest []), Hr.
Qed.

Lemma nil_or_snoc {A} (l : list A) : l = [] \/ exists l' a, l = l' ++ [a].
Proof. induction l using rev_ind; eauto. Qed.

Lemma is_nil_snoc {A} (l : list A) a : OsPath.is_nil (l ++ [a]) = false.
Proof. destruct l; reflexivity. Qed.

Lemma step_keeps_normalized i st c :
  Py.contains "/" c = false ->
  normalized_comps i st -> normalized_comps i (OsPath.normpath_step i st c).
Proof.
  intros Hc (n & rest & -> & Hr & Hn). unfold OsPath.normpath_step.
  destruct (String.eqb_spec c "") as [->|H1]; [exists n, rest; auto|].
  destruct (String.eqb_spec c ".") as [->|H2]; [exists n, rest; auto|]. simpl.
  destruct (String.eqb_spec c "..") as [->|H3]; simpl.
  - destruct (nil_or_snoc rest) as [->|(rest' & c' & ->)].
    + rewrite app_nil_r. destruct n as [|n].
      * simpl. destruct (Nat.eqb_spec i 0) as [->|Hi]; simpl.
        -- exists 1, []. repeat split; [constructor | congruence].
        -- exists 0, []. repeat split; constructor.
      * assert (Hi : i = 0).
        { destruct (Nat.eq_dec i 0) as [Hi|Hi]; [exact Hi|]. specialize (Hn Hi). lia. }
        subst i. pose proof (dotdot_step_on_dots (S n)) as E.
        unfold OsPath.normpath_step in E. simpl in E. simpl. rewrite E.
        exists (S (S n)), []. rewrite app_nil_r. repeat split; [constructor | congruence].

    + apply Forall_app in Hr as [Hr' Hc']. inversion Hc' as [|? ? Hp _]; subst.
      destruct Hp as (_ & _ & Hp3 & _). rewrite app_assoc, last_last.
      apply String.eqb_neq in Hp3. rewrite Hp3, !is_nil_snoc.
      rewrite !andb_false_r. simpl. rewrite removelast_last.
      exists n, rest'. auto.
  - exists n, (rest ++ [c]). rewrite app_assoc. repeat split; auto.
    apply Forall_app. split; [exact Hr|]. repeat constructor; assumption.
Qed.

Lemma fold_keeps_normalized i comps st :
  Forall (fun c => Py.contains "/" c = false) comps ->
  normalized_comps i st ->
  normalized_comps i (fold_left (OsPath.normpath_step i) comps st).
Proof.
  intros Hc. revert st. induction Hc as [|c comps Hc _ IH]; intros st Hst; simpl.
  - exact Hst.
  - apply IH, step_keeps_normalized; assumption.
Qed.

Lemma initial_slashes_le path : OsPath.initial_slashes path <= 2.
Proof.
  unfold OsPath.initial_slashes.
  destruct (Py.startswith path "/"); [|lia].
  destruct (Py.startswith path "//" && negb (Py.startswith path "///")); lia.
Qed.

(** A path assembled from normalized components is left as it is. *)
Lemma normpath_of_normalized i comps :
  i <= 2 -> normalized_comps i comps ->
  OsPath.normpath (OsPath.or_dot (OsPath.slashes i +:+ Py.join "/" comps))
  = OsPath.or_dot (OsPath.slashes i +:+ Py.join "/" comps).
Proof.
  intros Hi Hn. destruct comps as [|c cs].
  - destruct i as [|[|[|i]]]; [reflexivity..|lia].
  - assert (Hfree : Forall (fun c => Py.contains "/" c = false) (c :: cs)).
    { destruct Hn as (n & rest & -> & Hr & _). apply Forall_app. split.
      - apply Forall_forall. intros x Hx. apply list_elem_of_In, repeat_spec in Hx. subst. reflexivity.
      - eapply Forall_impl; [exact Hr|]. intros x (_ & _ & _ & Hx). exact Hx. }
    assert (Hhead : exists a c', c = String a c' /\ Ascii.eqb a "/" = false).
    { destruct Hn as (n & rest & E & Hr & _). destruct n as [|n]; simpl in E.
      - subst rest. inversion Hr as [|? ? (Hc1 & _ & _ & Hc4) _]; subst.
        destruct c as [|a c']; [congruence|].
        apply contains_slash_cons in Hc4 as [Ha _]. eauto.
      - inversion E; subst. exists "."%char, ".". split; reflexivity. }
    destruct Hhead as (a & c' & -> & Ha).
    assert (Hj : exists j', Py.join "/" (String a c' :: cs) = String a j').
    { destruct cs; simpl; eauto. }
    destruct Hj as (j' & Ej).
    assert (Hsplit : Py.split_on "/" (String a j') = String a c' :: cs).
    { rewrite <- Ej. apply split_on_join; [discriminate | exact Hfree]. }
    assert (Hpre : String.prefix "/" (String a j') = false).
    { apply prefix_slash_iff, Ha. }
    rewrite Ej.
    destruct i as [|[|[|i]]]; [| | |lia].
    + change (OsPath.or_dot (OsPath.slashes 0 +:+ String a j')) with (String a j').
      unfold OsPath.normpath. change (Py.is_empty_str (String a j')) with false.
      cbv iota.
      assert (Ei : OsPath.initial_slashes (String a j') = 0).
      { unfold OsPath.initial_slashes, Py.startswith. rewrite Hpre. reflexivity. }
      rewrite Ei, Hsplit, (fold_normalized 0 _ Hn), Ej. reflexivity.
    + change (OsPath.or_dot (OsPath.slashes 1 +:+ String a j'))
        with (String "/" (String a j')).
      unfold OsPath.normpath.
      change (Py.is_empty_str (String "/" (String a j'))) with false. cbv iota.
      assert (Ei : OsPath.initial_slashes (String "/" (String a j')) = 1).
      { unfold OsPath.initial_slashes, Py.startswith.
        change (String.prefix "/" (String "/" (String a j'))) with true.
        change (String.prefix "//" (String "/" (String a j')))
          with (String.prefix "/" (String a j')).
        rewrite Hpre. reflexivity. }
      rewrite Ei.
      change (Py.split_on "/" (String "/" (String a j')))
        with ("" :: Py.split_on "/" (String a j')).
      rewrite Hsplit.
      change (fold_left (OsPath.normpath_step 1) ("" :: String a c' :: cs) [])
        with (fold_left (OsPath.normpath_step 1) (String a c' :: cs) []).
      rewrite (fold_normalized 1 _ Hn), Ej. reflexivity.
    + change (OsPath.or_dot (OsPath.slashes 2 +:+ String a j'))
        with (String "/" (String "/" (String a j'))).
      unfold OsPath.normpath.
      change (Py.is_empty_str (String "/" (String "/" (String a j')))) with false.
      cbv iota.
      assert (Ei : OsPath.initial_slashes (String "/" (String "/" (String a j'))) = 2).
      { unfold OsPath.initial_slashes, Py.startswith.
        change (String.prefix "/" (String "/" (String "/" (String a j')))) with true.
        change (String.prefix "//" (String "/" (String "/" (String a j')))) with true.
        change (String.prefix "///" (String "/" (String "/" (String a j'))))
          with (String.prefix "/" (String a j')).
        rewrite Hpre. reflexivity. }
      rewrite Ei.
      change (Py.split_on "/" (String "/" (String "/" (String a j'))))
        with ("" :: "" :: Py.split_on "/" (String a j')).
      rewrite Hsplit.
      change (fold_left (OsPath.normpath_step 2) ("" :: "" :: String a c' :: cs) [])
        with (fold_left (OsPath.normpath_step 2) (String a c' :: cs) []).
      rewrite (fold_normalized 2 _ Hn), Ej. reflexivity.
Qed.

(** [normpath] applied to one of its results gives the result back. *)
Lemma normpath_idempotent path :
  OsPath.normpath (OsPath.normpath path) = OsPath.normpath path.
Proof.
  unfold OsPath.normpath at 2 3. destruct (Py.is_empty_str path); [reflexivity|].
  apply normpath_of_normalized; [apply initial_slashes_le|].
  apply fold_keeps_normalized; [apply split_on_slashfree|].
  exists 0, []. repeat split; constructor.
Qed.

End NormpathTheory.

(* ===================================================================== *)
(** ** Theory: the class [Diarization] *)
(* ===================================================================== *)

Section DiarizationTheory.
Context {real seed : Type} `{Numeric real} `{Collaborators real seed}.
Variable cfg : config real.

Local Abbreviation Mon := (@M real seed).
Implicit Types (w : world real seed).

Lemma bind_Ok {A B} (c : Mon A) (k : A -> Mon B) w b w' :
  bind c k w = (Ok b, w') <->
  exists a w1, c w = (Ok a, w1) /\ k a w1 = (Ok b, w').
Proof.
  unfold bind. split.
  - destruct (c w) as [[a|e] w1]; intros E; [eauto | discriminate].
  - intros (a & w1 & -> & E). exact E.
Qed.

Lemma bind_Raise_l {A B} (c : Mon A) (k : A -> Mon B) w e w' :
  c w = (Raise e, w') -> bind c k w = (Raise e, w').
Proof. unfold bind. intros ->. reflexivity. Qed.

Lemma bind_assoc {A B C} (c : Mon A) (k1 : A -> Mon B) (k2 : B -> Mon C) w :
  bind (bind c k1) k2 w = bind c (fun a => bind (k1 a) k2) w.
Proof. unfold bind. destruct (c w) as [[a|e] w1]; reflexivity. Qed.

Lemma bind_ext {A B} (c : Mon A) (k k' : A -> Mon B) w :
  (forall a w1, k a w1 = k' a w1) -> bind c k w = bind c k' w.
Proof.
  intros E. unfold bind. destruct (c w) as [[a|e] w1]; [apply E | reflexivity].
Qed.

Lemma lift_Ok {A} (r : result A) w a w' :
  lift r w = (Ok a, w') <-> r = Ok a /\ w' = w.
Proof.
  unfold lift. split.
  - intros E. inversion E. auto.
  - intros [-> ->]. reflexivity.
Qed.

Lemma ret_Ok {A} (a : A) w b w' :
  ret a w = (Ok b, w') <-> b = a /\ w' = w.
Proof.
  unfold ret. split.
  - intros E. inversion E. auto.
  - intros [-> ->]. reflexivity.
Qed.

Lemma tril_indices_Ok n idx :
  tril_indices n = Ok idx <-> (0 <= n)%Z /\ idx = tril_pairs (Z.to_nat n).
Proof.
  unfold tril_indices. destruct (Z.ltb_spec n 0); split.
  - discriminate.
  - intros [? _]. lia.
  - intros E. inversion E. auto.
  - intros [_ ->]. reflexivity.
Qed.

Lemma fancy_index_complete (m : list (list real)) idx v :
  Forall2 (fun ij x => entry m ij = Some x) idx v -> fancy_index m idx = Ok v.
Proof.
  unfold fancy_index. induction 1 as [|ij x idx v E _ IH]; simpl; [reflexivity|].
  unfold entry in E. unfold list_index at 1.
  destruct (m !! ij.1) as [r|]; [|discriminate]. simpl.
  unfold list_index at 1. rewrite E. simpl. rewrite IH. reflexivity.
Qed.

(** [model.test(x, prob=True)] is [predict_proba] of the wrapped estimator,
    for both classes. *)
Lemma test_prob_mode (fs : list (list real)) a :
  test model fs true = Ok a <->
  exists probs, a = Array2 probs /\
    predict_proba
      (match model with LogisticRegressionModel sk | GMMModel sk => sk end) fs
      = Ok probs.
Proof.
  unfold test, LogisticRegressionModel_test, GMMModel_test, result_map.
  destruct model as [sk|sk]; simpl;
    (destruct (predict_proba sk fs) as [p|e]; simpl; split;
     [ intros E; inversion E; eauto
     | intros (p' & -> & E); inversion E; reflexivity
     | discriminate
     | intros (p' & _ & E); discriminate ]).
Qed.

(** The loop with its two accumulators performs the candidate passes. *)
Lemma get_num_speakers_loop_passes x cands cl0 fs0 w cl fs w' :
  get_num_speakers_loop x cands cl0 fs0 w = (Ok (cl, fs), w') <->
  exists cl1 fs1, cl = cl0 ++ cl1 /\ fs = fs0 ++ fs1 /\
    candidate_passes get_features x cands w cl1 fs1 w'.
Proof.
  revert cl0 fs0 w. induction cands as [|n rest IH]; intros cl0 fs0 w; simpl.
  - split.
    + intros E. apply ret_Ok in E as [E ->]. inversion E; subst.
      exists [], []. rewrite !app_nil_r. repeat split. constructor.
    + intros (cl1 & fs1 & -> & -> & Hp). inversion Hp; subst.
      rewrite !app_nil_r. reflexivity.
  - split.
    + intros E.
      apply bind_Ok in E as (c & w1 & Hc & E).
      apply bind_Ok in E as (sn & w2 & Hsn & E). apply lift_Ok in Hsn as [Hsn ->].
      apply bind_Ok in E as (idx & w3 & Hidx & E). apply lift_Ok in Hidx as [Hidx ->].
      apply bind_Ok in E as (tr & w4 & Htr & E). apply lift_Ok in Htr as [Htr ->].
      apply bind_Ok in E as (f & w5 & Hf & E). apply lift_Ok in Hf as [Hf ->].
      apply tril_indices_Ok in Hidx as [Hn ->].
      apply fancy_index_Ok in Htr.
      apply IH in E as (cl1 & fs1 & -> & -> & Hp).
      exists (c :: cl1), (f :: fs1). rewrite <- !app_assoc. simpl.
      repeat split. econstructor; eauto.
    + intros (cl1 & fs1 & -> & -> & Hp). inversion Hp; subst.
      apply bind_Ok. do 2 eexists. split; [eassumption|].
      apply bind_Ok. do 2 eexists. split; [apply lift_Ok; eauto|].
      apply bind_Ok. do 2 eexists. split;
        [apply lift_Ok; split; [apply tril_indices_Ok; eauto | reflexivity]|].
      apply bind_Ok. do 2 eexists. split;
        [apply lift_Ok; split; [apply fancy_index_complete; eassumption | reflexivity]|].
      apply bind_Ok. do 2 eexists. split; [apply lift_Ok; eauto|].
      apply IH. do 2 eexists. rewrite <- !app_assoc. simpl. eauto.
Qed.

Lemma candidate_passes_length feat x cands w cl fs w' :
  candidate_passes feat x cands w cl fs w' ->
  length cl = length cands /\ length fs = length cands.
Proof. induction 1; simpl; lia. Qed.



(** What a normal return of [get_num_speakers] is made of. *)
Lemma get_num_speakers_Ok x lo hi w n c w' :
  get_num_speakers x lo hi w = (Ok (n, c), w') <->
  exists cl fs probs k,
    candidate_passes get_features x (range lo (hi + 1)) w cl fs w' /\
    test model fs true = Ok (Array2 probs) /\
    argmax (sum_axis0 (Array2 probs)) = Ok k /\
    cl !! k = Some c /\ n = (Z.of_nat k + lo)%Z.
Proof.
  unfold get_num_speakers. split.
  - intros E.
    apply bind_Ok in E as ([cl fs] & w1 & Hl & E). simpl in E.
    apply bind_Ok in E as (a & w2 & Ht & E). apply lift_Ok in Ht as [Ht ->].
    apply bind_Ok in E as (k & w3 & Hk & E). apply lift_Ok in Hk as [Hk ->].
    apply bind_Ok in E as (c' & w4 & Hc & E). apply lift_Ok in Hc as [Hc ->].
    apply ret_Ok in E as [E ->]. inversion E; subst.
    apply get_num_speakers_loop_passes in Hl as (cl1 & fs1 & -> & -> & Hp).
    simpl in *. apply list_index_Ok in Hc.
    pose proof Ht as Ht'. apply test_prob_mode in Ht' as (probs & -> & _).
    exists cl1, fs1, probs, k. auto.
  - intros (cl & fs & probs & k & Hp & Ht & Ea & Ec & ->).
    apply bind_Ok. exists (cl, fs), w'. split.
    { apply get_num_speakers_loop_passes. exists cl, fs. auto. }
    simpl. apply bind_Ok. do 2 eexists. split; [apply lift_Ok; eauto|].
    apply bind_Ok. do 2 eexists. split; [apply lift_Ok; eauto|].
    apply bind_Ok. do 2 eexists. split;
      [apply lift_Ok; split; [apply list_index_Ok; eauto | reflexivity]|].
    reflexivity.
Qed.

Lemma get_num_speakers_index x lo hi w n c w' :
  get_num_speakers x lo hi w = (Ok (n, c), w') ->
  exists k, n = (Z.of_nat k + lo)%Z /\ range lo (hi + 1) !! k = Some n.
Proof.
  intros E. apply get_num_speakers_Ok in E
    as (cl & fs & probs & k & Hp & _ & _ & Ec & ->).
  exists k. split; [reflexivity|].
  apply candidate_passes_length in Hp as [Hl _].
  apply lookup_lt_Some in Ec. rewrite Hl, range_length in Ec.
  apply range_lookup. lia.
Qed.




(** C2.  On a normal return, the second component is the element of
    [centroids_list], as the loop over the candidates left it, at the winning
    index; and the world on return (the random state with it) is the one the
    loop left, so nothing was clustered after the selection. *)
Theorem get_num_speakers_reuses_centroids x lo hi w n c w' :
  get_num_speakers x lo hi w = (Ok (n, c), w') ->
  exists centroids_list features,
    get_num_speakers_loop x (range lo (hi + 1)) [] [] w
      = (Ok (centroids_list, features), w') /\
    candidate_passes get_features x (range lo (hi + 1)) w
      centroids_list features w' /\
    length centroids_list = length (range lo (hi + 1)) /\
    centroids_list !! Z.to_nat (n - lo) = Some c.
Proof.
  intros E. apply get_num_speakers_Ok in E
    as (cl & fs & probs & k & Hp & _ & _ & Ec & ->).
  exists cl, fs. split; [|split; [exact Hp|split]].
  - apply get_num_speakers_loop_passes. exists cl, fs. auto.
  - apply (candidate_passes_length _ _ _ _ _ _ _ Hp).
  - replace (Z.to_nat (Z.of_nat k + lo - lo)) with k by lia. exact Ec.
Qed.

Lemma get_num_speakers_in_bounds x lo hi w n c w' :
  get_num_speakers x lo hi w = (Ok (n, c), w') -> (lo <= n <= hi)%Z.
Proof.
  intros E. apply get_num_speakers_index in E as (k & -> & Hr).
  apply range_lookup in Hr. lia.
Qed.

(** C5.  With the default bounds 2 and 6, a count returned by
    [get_num_speakers] lies between 2 and 6. *)
Theorem get_num_speakers_default_in_bounds x w n c w' :
  get_num_speakers x 2 6 w = (Ok (n, c), w') -> (2 <= n <= 6)%Z.
Proof. apply get_num_speakers_in_bounds. Qed.

(** C10.  The count returned is a candidate whose accumulated probability
    none exceeds, and every candidate attaining that maximum is at least as
    large: on a tie the smallest candidate count is returned. *)
Theorem get_num_speakers_tie_smallest x lo hi w n c w' :
  strict_weak_order (rltb (real := real)) ->
  get_num_speakers x lo hi w = (Ok (n, c), w') ->
  exists centroids_list features probs,
    candidate_passes get_features x (range lo (hi + 1)) w
      centroids_list features w' /\
    test model features true = Ok (Array2 probs) /\
    attains_max (sum_axis0 (Array2 probs)) (Z.to_nat (n - lo)) /\
    forall j, attains_max (sum_axis0 (Array2 probs)) j -> (n <= lo + Z.of_nat j)%Z.
Proof.
  intros Hord E. apply get_num_speakers_Ok in E
    as (cl & fs & probs & k & Hp & Ht & Ea & Ec & ->).
  apply argmax_first_max in Ea; [|exact Hord].
  exists cl, fs, probs. repeat split; auto.
  - replace (Z.to_nat (Z.of_nat k + lo - lo)) with k by lia.
    apply first_max_attains, Ea.
  - intros j Hj. pose proof (first_max_lowest _ _ _ Ea Hj). lia.
Qed.

(** *** [score] and [dump_rttm] on the sets of [self.ivecs] *)

Lemma score_loop_app l1 l2 d w :
  score_loop cfg (l1 ++ l2) d w
  = bind (score_loop cfg l1 d) (score_loop cfg l2) w.
Proof.
  revert d w. induction l1 as [|s l1 IH]; intros d w; simpl.
  - reflexivity.
  - rewrite bind_assoc. apply bind_ext. intros d' w1. apply IH.
Qed.

(** C3.  A set of size 0 is skipped by both passes: [score] goes on to the
    remaining sets with the dictionary as it was, having logged its progress
    line and the warning; [dump_rttm] goes on to the remaining sets having
    logged the warning only, so no file was opened or written and no set
    renamed. *)
Theorem empty_set_skipped (s : IvecSet real) :
  set_size s = 0 ->
  (forall rest d w,
     score_loop cfg (s :: rest) d w
     = score_loop cfg rest d
         (logged w [Info (msg_scoring (OsPath.normpath (name s)));
                    Warning (msg_nothing_to_score (name s))])) /\
  (forall scores pos rest w,
     dump_loop cfg scores pos (s :: rest) w
     = dump_loop cfg scores (S pos) rest
         (logged w [Warning (msg_nothing_to_dump (name s))])).
Proof.
  intros Hs. split.
  - intros rest d w. simpl. unfold score_body. rewrite Hs. simpl.
    unfold bind, loginfo, logwarning, ret, logged. simpl.
    rewrite <- app_assoc. reflexivity.
  - intros scores pos rest w. simpl. unfold dump_body. rewrite Hs. simpl.
    unfold bind, logwarning, logged. reflexivity.
Qed.

(** C4.  When the loop of [score] reaches a set that has embeddings but no
    [num_speakers], and no cohort is configured, [score] raises the
    [DiarizationException] of the estimation that cannot be done (the
    [SpeakerCountUnknownError] of the specification) and returns no
    dictionary. *)
Theorem score_without_cohort_fails before (s : IvecSet real) after w d w1 :
  self_ivecs w = before ++ s :: after ->
  score_loop cfg before ∅ w = (Ok d, w1) ->
  0 < set_size s ->
  num_speakers s = None ->
  norm_ivecs cfg = None ->
  score cfg w
  = (Raise (DiarizationException msg_cannot_estimate),
     logged w1 [Info (msg_scoring (OsPath.normpath (name s)))]).
Proof.
  intros Hl Hb Hs Hn Hc. unfold score, get_self_ivecs. unfold bind at 1.
  rewrite Hl, score_loop_app. unfold bind at 1. rewrite Hb. simpl.
  unfold score_body. apply Nat.ltb_lt in Hs. rewrite Hs, Hn, Hc.
  unfold bind, loginfo, raise, logged. reflexivity.
Qed.

(** *** Labels *)

(** [m.T[i]] holds, row of [m] by row, the entry of that row at [i]. *)
Lemma column_entries (m : list (list real)) i row :
  column m i = Ok row ->
  m <> [] /\ length row = length m /\ forall j, row !! j = entry m (j, i).
Proof.
  unfold column. intros E.
  assert (F : Forall2 (fun r x => list_index r i = Ok x) m row).
  { destruct m; [discriminate|]. apply result_mapM_Ok, E. }
  split; [destruct m; [discriminate | discriminate]|].
  pose proof (Forall2_length _ _ _ F) as Hlen.
  split; [symmetry; exact Hlen|].
  intros j. unfold entry. simpl.
  destruct (m !! j) as [r|] eqn:Er.
  - destruct (Forall2_lookup_l _ _ _ _ _ F Er) as (y & Ey & Hy).
    apply list_index_Ok in Hy. rewrite Ey, Hy. reflexivity.
  - apply lookup_ge_None. apply lookup_ge_None in Er. lia.
Qed.

Lemma label_Ok scores nm i k :
  label scores nm i = Ok k <->
  exists m row, scores !! nm = Some m /\ column m i = Ok row /\ argmax row = Ok k.
Proof.
  unfold label, lookup_scores. split.
  - intros E. destruct (scores !! nm) as [m|]; [|discriminate]. simpl in E.
    apply result_bind_Ok in E as (row & Er & Ea). eauto.
  - intros (m & row & -> & Er & Ea). simpl. rewrite Er. exact Ea.
Qed.

Lemma write_lines_Ok scores nm reg path i l w w' :
  write_lines scores nm reg path i l w = (Ok tt, w') ->
  exists ks,
    Forall2 (fun j k => label scores nm j = Ok k) (seq i (length l)) ks /\
    file_content w' path
    = file_content w path
      ++ zip_with (fun ivec k => RttmLine reg (window_start ivec)
                                   (window_end ivec - window_start ivec) k) l ks.
Proof.
  revert i w. induction l as [|ivec rest IH]; intros i w E; simpl in E.
  - apply ret_Ok in E as [_ ->]. exists []. split; [constructor|].
    simpl. rewrite app_nil_r. reflexivity.
  - apply bind_Ok in E as (k & w1 & Hk & E). apply lift_Ok in Hk as [Hk ->].
    apply bind_Ok in E as ([] & w2 & Hw & E).
    unfold file_write in Hw. inversion Hw; subst; clear Hw.
    apply IH in E as (ks & Hks & Hf). exists (k :: ks). split.
    + simpl. constructor; assumption.
    + rewrite Hf. unfold file_content at 1. simpl.
      rewrite lookup_insert_eq. simpl. rewrite <- app_assoc. reflexivity.
Qed.

Lemma hyp_lines_Ok scores keys nm reg i l hyp w hyp' w' :
  hyp_lines scores keys nm reg i l hyp w = (Ok hyp', w') ->
  exists ks,
    Forall2 (fun j k => label scores nm j = Ok k) (seq i (length l)) ks /\
    hyp' = hyp ++ zip_with (fun ivec k => HypEntry reg (window_start ivec)
                                            (window_end ivec) k) l ks.
Proof.
  revert i hyp w. induction l as [|ivec rest IH]; intros i hyp w E; simpl in E.
  - apply ret_Ok in E as [-> ->]. exists []. split; [constructor|].
    simpl. rewrite app_nil_r. reflexivity.
  - apply bind_Ok in E as (k & w1 & Hk & E). apply lift_Ok in Hk as [Hk ->].
    apply bind_Ok in E as ([] & w2 & _ & E).
    apply IH in E as (ks & Hks & ->). exists (k :: ks). split.
    + simpl. constructor; assumption.
    + rewrite <- app_assoc. reflexivity.
Qed.

(** C7.  With the comparison of scores a strict weak order: the label
    [np.argmax(scores[name].T[i])] of embedding [i] is taken over that
    embedding's scores, which are the entries [scores[name][j][i]] for every
    row [j] of the matrix stored under the name, in the order of the rows
    (column [i] of [scores[name]], that is, row [i] of [scores[name].T]); it
    is a position of the maximum of these scores, and the lowest of the
    positions that attain it; the lines that [dump_rttm] writes for a set and
    the entries that [get_der] makes for it carry these labels, embedding by
    embedding; and the label depends on nothing but the score matrix found
    under the name, so the same matrices give the same labels. *)
Theorem labels_are_first_argmax :
  strict_weak_order (rltb (real := real)) ->
  (forall (scores : gmap string (list (list real))) nm i k,
     label scores nm i = Ok k ->
     exists m row, scores !! nm = Some m /\ column m i = Ok row /\
       length row = length m /\
       (forall j, row !! j = entry m (j, i)) /\
       attains_max row k /\ forall j, attains_max row j -> k <= j) /\
  (forall scores nm reg path l w w',
     write_lines scores nm reg path 0 l w = (Ok tt, w') ->
     exists ks,
       Forall2 (fun i k => label scores nm i = Ok k) (seq 0 (length l)) ks /\
       file_content w' path
       = file_content w path
         ++ zip_with (fun ivec k => RttmLine reg (window_start ivec)
                                      (window_end ivec - window_start ivec) k) l ks) /\
  (forall scores keys nm reg l hyp w hyp' w',
     hyp_lines scores keys nm reg 0 l hyp w = (Ok hyp', w') ->
     exists ks,
       Forall2 (fun i k => label scores nm i = Ok k) (seq 0 (length l)) ks /\
       hyp' = hyp ++ zip_with (fun ivec k => HypEntry reg (window_start ivec)
                                               (window_end ivec) k) l ks) /\
  (forall (scores1 scores2 : gmap string (list (list real))) nm i,
     scores1 !! nm = scores2 !! nm -> label scores1 nm i = label scores2 nm i).
Proof.
  intros Hord. split; [|split; [|split]].
  - intros scores nm i k E. apply label_Ok in E as (m & row & Em & Er & Ea).
    apply argmax_first_max in Ea; [|exact Hord].
    destruct (column_entries _ _ _ Er) as (_ & Hlen & Hent).
    exists m, row.
    split; [exact Em|]. split; [exact Er|]. split; [exact Hlen|].
    split; [exact Hent|]. split.
    + apply first_max_attains, Ea.
    + intros j Hj. eapply first_max_lowest; eassumption.
  - intros *. apply write_lines_Ok.
  - intros *. apply hyp_lines_Ok.
  - intros scores1 scores2 nm i E. unfold label, lookup_scores. rewrite E.
    reflexivity.
Qed.

(** *** The keys of the score dictionary *)

Lemma score_body_Ok d (s : IvecSet real) w d' w' :
  score_body cfg d s w = (Ok d', w') ->
  (0 < set_size s /\ exists m, d' = <[OsPath.normpath (name s) := m]> d) \/
  (set_size s = 0 /\ d' = d).
Proof.
  unfold score_body. intros E.
  apply bind_Ok in E as ([] & w1 & _ & E).
  destruct (Nat.ltb_spec 0 (set_size s)) as [Hs|Hs].
  - left. split; [exact Hs|].
    apply bind_Ok in E as (c & w2 & _ & E).
    apply bind_Ok in E as (m & w3 & _ & E).
    apply ret_Ok in E as [-> _]. eauto.
  - right. split; [lia|].
    apply bind_Ok in E as ([] & w2 & _ & E).
    apply ret_Ok in E as [-> _]. reflexivity.
Qed.

Lemma score_loop_keys sets d w d' w' :
  score_loop cfg sets d w = (Ok d', w') ->
  forall key, is_Some (d' !! key) <->
    is_Some (d !! key) \/
    exists s, s ∈ sets /\ 0 < set_size s /\ OsPath.normpath (name s) = key.
Proof.
  revert d w. induction sets as [|s sets IH]; intros d w E key; simpl in E.
  - apply ret_Ok in E as [-> _]. split; [auto|].
    intros [Hd|(s & Hs & _)]; [exact Hd|]. apply elem_of_nil in Hs as [].
  - apply bind_Ok in E as (d1 & w1 & Hb & E).
    rewrite (IH _ _ E key). apply score_body_Ok in Hb as [(Hs & m & ->)|(Hs & ->)].
    + rewrite lookup_insert_is_Some. split.
      * intros [[Hk|[_ Hd]]|(s' & Hin & Hs' & Hk)].
        -- right. exists s. split; [left|]; auto.
        -- left. exact Hd.
        -- right. exists s'. split; [right|]; auto.
      * intros [Hd|(s' & Hin & Hs' & Hk)].
        -- destruct (decide (OsPath.normpath (name s) = key)); auto.
        -- apply elem_of_cons in Hin as [->|Hin]; [auto|].
           right. exists s'. auto.
    + split.
      * intros [Hd|(s' & Hin & Hs' & Hk)]; [auto|].
        right. exists s'. split; [right|]; auto.
      * intros [Hd|(s' & Hin & Hs' & Hk)]; [auto|].
        apply elem_of_cons in Hin as [->|Hin]; [lia|].
        right. exists s'. auto.
Qed.

Lemma score_keys w d w' :
  score cfg w = (Ok d, w') ->
  forall key, is_Some (d !! key) <->
    exists s, s ∈ self_ivecs w /\ 0 < set_size s /\ OsPath.normpath (name s) = key.
Proof.
  unfold score. intros E key.
  apply bind_Ok in E as (sets & w1 & Hg & E).
  unfold get_self_ivecs in Hg. inversion Hg; subst.
  rewrite (score_loop_keys _ _ _ _ _ E key). rewrite lookup_empty. split.
  - intros [Hd|Hs]; [destruct Hd; discriminate | exact Hs].
  - auto.
Qed.

Lemma result_mapM_Raise {A B} (f : A -> result B) l e :
  result_mapM f l = Raise e -> exists x, f x = Raise e.
Proof.
  induction l as [|x l IH]; simpl; [discriminate|].
  destruct (f x) as [y|e'] eqn:Ex; simpl.
  - destruct (result_mapM f l); simpl; [discriminate|]. intros E. apply IH. exact E.
  - intros E. inversion E; subst. eauto.
Qed.

Lemma label_KeyError (scores : gmap string (list (list real))) nm i key :
  label scores nm i = Raise (KeyError key) <-> scores !! nm = None /\ key = nm.
Proof.
  unfold label, lookup_scores. split.
  - destruct (scores !! nm) as [m|]; simpl.
    + destruct (column m i) as [row|e] eqn:Ec; simpl.
      * destruct row; discriminate.
      * intros E. inversion E; subst. unfold column in Ec.
        destruct m; [discriminate|].
        apply result_mapM_Raise in Ec as (r & Er). unfold list_index in Er.
        destruct (r !! i); discriminate.
    + intros E. inversion E. auto.
  - intros [-> ->]. reflexivity.
Qed.

Lemma write_lines_KeyError scores nm reg path i l w key :
  fst (write_lines scores nm reg path i l w) = Raise (KeyError key) <->
  scores !! nm = None /\ key = nm /\ l <> [].
Proof.
  revert i w. induction l as [|ivec l IH]; intros i w; simpl.
  - split; [discriminate|]. intros (_ & _ & C). congruence.
  - unfold bind at 1, lift. destruct (label scores nm i) as [k|e] eqn:El.
    + unfold bind at 1, file_write. rewrite IH. split.
      * intros (Hn & -> & _). auto.
      * intros (Hn & -> & _). exfalso.
        assert (C : label scores nm i = Raise (KeyError nm))
          by (apply label_KeyError; auto).
        congruence.
    + simpl. split.
      * intros E. inversion E; subst. apply label_KeyError in El as [Hn ->]. auto.
      * intros (Hn & -> & _). f_equal. symmetry.
        assert (C : label scores nm i = Raise (KeyError nm))
          by (apply label_KeyError; auto).
        congruence.
Qed.

Lemma dump_body_KeyError scores pos (s : IvecSet real) w key :
  0 < set_size s ->
  fst (dump_body cfg scores pos s w) = Raise (KeyError key) <->
  scores !! name s = None /\ key = name s.
Proof.
  intros Hs. unfold dump_body. pose proof Hs as Hs'. apply Nat.ltb_lt in Hs'.
  rewrite Hs'. unfold bind at 1.
  destruct (Py.contains "beamformed" (name s));
    (unfold set_name, ret; unfold bind at 1, mkdir_p; unfold bind at 1, open_w;
     rewrite write_lines_KeyError; unfold set_size in Hs;
     destruct (ivecs s); [simpl in Hs; lia|];
     split; [intros (? & ? & _); auto | intros [? ?]; repeat split; auto; discriminate]).
Qed.

(** C8.  After [score] has filled the dictionary from [self.ivecs], for a
    set with embeddings: [scores[name]] with the raw name of the set is found
    exactly when [normpath] leaves the name as it is; and the round of
    [dump_rttm] for the set, given this dictionary, raises the [KeyError] of
    the name exactly when [normpath] changes it. *)
Theorem dump_lookup_iff_normalized w d w' (s : IvecSet real) :
  score cfg w = (Ok d, w') ->
  s ∈ self_ivecs w ->
  0 < set_size s ->
  ((exists m, lookup_scores d (name s) = Ok m)
   <-> OsPath.normpath (name s) = name s) /\
  (forall pos w2,
     fst (dump_body cfg d pos s w2) = Raise (KeyError (name s))
     <-> OsPath.normpath (name s) <> name s).
Proof.
  intros Hsc Hin Hs. pose proof (score_keys _ _ _ Hsc (name s)) as Hk.
  assert (Hiff : is_Some (d !! name s) <-> OsPath.normpath (name s) = name s).
  { rewrite Hk. split.
    - intros (s' & _ & _ & E). rewrite <- E. apply normpath_idempotent.
    - intros E. exists s. auto. }
  split.
  - rewrite <- Hiff. unfold lookup_scores. destruct (d !! name s) as [m|].
    + split; eauto.
    + split; [intros [m E]; discriminate | intros [m E]; discriminate].
  - intros pos w2. rewrite dump_body_KeyError by exact Hs.
    rewrite <- Hiff. destruct (d !! name s) as [m|].
    + split; [intros [C _]; discriminate | intros C; destruct C; eauto].
    + split; [intros _ [m C]; discriminate | auto].
Qed.

(** *** What [dump_rttm] does to [self.ivecs] *)

Lemma write_lines_ivecs scores nm reg path i l w :
  self_ivecs (snd (write_lines scores nm reg path i l w)) = self_ivecs w.
Proof.
  revert i w. induction l as [|ivec l IH]; intros i w; simpl; [reflexivity|].
  unfold bind at 1, lift. destruct (label scores nm i); [|reflexivity].
  unfold bind at 1, file_write. rewrite IH. reflexivity.
Qed.

Lemma dump_body_ivecs scores (s : IvecSet real) before after w :
  self_ivecs w = before ++ s :: after ->
  self_ivecs (snd (dump_body cfg scores (length before) s w))
  = before ++ renamed s :: after.
Proof.
  intros Hl. unfold dump_body, renamed.
  destruct (Nat.ltb 0 (set_size s)); simpl andb.
  - unfold bind at 1.
    destruct (Py.contains "beamformed" (name s));
      unfold set_name, ret; unfold bind at 1, mkdir_p; unfold bind at 1, open_w;
      rewrite write_lines_ivecs; simpl; rewrite Hl; [|reflexivity].
    replace (length before) with (length before + 0) by lia.
    rewrite alter_app_r. reflexivity.
  - unfold logwarning. simpl. exact Hl.
Qed.

Lemma dump_loop_ivecs scores sets before w res w' :
  self_ivecs w = before ++ sets ->
  dump_loop cfg scores (length before) sets w = (res, w') ->
  exists k, k <= length sets /\
    self_ivecs w' = before ++ map renamed (take k sets) ++ drop k sets /\
    (res = Ok tt -> k = length sets).
Proof.
  revert before w. induction sets as [|s sets IH]; intros before w Hl E; simpl in E.
  - unfold ret in E. inversion E; subst. exists 0. simpl. auto.
  - pose proof (dump_body_ivecs scores s before sets w Hl) as Hb.
    unfold bind in E.
    destruct (dump_body cfg scores (length before) s w) as [[[]|e] w1]; simpl in Hb.
    + replace (S (length before)) with (length (before ++ [renamed s])) in E
        by (rewrite length_app; simpl; lia).
      apply IH in E as (k & Hk & Hw & Hres);
        [|rewrite Hb, <- app_assoc; reflexivity].
      exists (S k). simpl. rewrite Hw, <- app_assoc. simpl.
      repeat split; [lia|]. intros Hr. rewrite (Hres Hr). reflexivity.
    + inversion E; subst. exists 1. simpl. rewrite ?take_0, ?drop_0. simpl.
      repeat split; [lia | exact Hb | discriminate].
Qed.

Lemma renamed_attributes (s : IvecSet real) :
  name (renamed s)
  = (if Nat.ltb 0 (set_size s) then strip_beamformed (name s) else name s) /\
  num_speakers (renamed s) = num_speakers s /\
  ivecs (renamed s) = ivecs s.
Proof.
  unfold renamed, strip_beamformed.
  destruct (Nat.ltb 0 (set_size s)), (Py.contains "beamformed" (name s));
    simpl; auto.
Qed.

(** C9, as amended.  [dump_rttm] rewrites the names in [self.ivecs]: of the
    sets its loop reached (all of them on a normal return), those that have
    embeddings and a name containing [beamformed] now carry the name without
    the occurrences of [beamformed/]; the sets of size 0, the sets not
    reached, and [num_speakers] and the embeddings of every set are as they
    were.  The operations that follow read these names: [get_der] runs its
    loop, with the keys of [init_annotations], over the rewritten list. *)
Theorem dump_rttm_renames scores w res w' :
  dump_rttm cfg scores w = (res, w') ->
  (exists k, k <= length (self_ivecs w) /\
     self_ivecs w'
     = map renamed (take k (self_ivecs w)) ++ drop k (self_ivecs w) /\
     (res = Ok tt -> self_ivecs w' = map renamed (self_ivecs w))) /\
  (forall s : IvecSet real,
     name (renamed s)
     = (if Nat.ltb 0 (set_size s) then strip_beamformed (name s) else name s) /\
     num_speakers (renamed s) = num_speakers s /\
     ivecs (renamed s) = ivecs s) /\
  (forall scores2,
     get_der_hyp scores2 w'
     = get_der_loop scores2 (init_annotations_loop (self_ivecs w') ∅)
         (self_ivecs w') [] w').
Proof.
  intros E. unfold dump_rttm, get_self_ivecs in E. unfold bind in E.
  apply (dump_loop_ivecs scores (self_ivecs w) [] w) in E as (k & Hk & Hw & Hres);
    [|reflexivity].
  split; [|split].
  - exists k. repeat split; auto. intros Hr. rewrite Hw, (Hres Hr).
    rewrite firstn_all, drop_all, app_nil_r. reflexivity.
  - apply renamed_attributes.
  - intros scores2. reflexivity.
Qed.

(** *** The lines of the manifest *)

Lemma load_line_no_token raw w :
  Py.split (Py.rstrip raw) = [] ->
  load_line cfg raw w = (Raise IndexError, w).
Proof. intros E. unfold load_line. rewrite E. reflexivity. Qed.

Lemma load_line_one_token raw tok s w :
  Py.split (Py.rstrip raw) = [tok] ->
  pickle_at (OsPath.join (ivecs_dir cfg) (Py.rstrip raw +:+ ".pkl")) = Some s ->
  load_line cfg raw w = (Ok (Some s), logged w [Info (msg_loading tok)]).
Proof.
  intros E Hp. unfold load_line. rewrite E. simpl.
  unfold bind at 1, lift. unfold bind at 1, loginfo. rewrite Hp. reflexivity.
Qed.

Lemma load_line_two_tokens raw tok count k s w :
  Py.split (Py.rstrip raw) = [tok; count] ->
  Py.int count = Some k ->
  pickle_at (OsPath.join (ivecs_dir cfg) (tok +:+ ".pkl")) = Some s ->
  load_line cfg raw w
  = (Ok (Some (with_num_speakers s k)), logged w [Info (msg_loading tok)]).
Proof.
  intros E Hk Hp. unfold load_line. rewrite E.
  unfold bind, lift, loginfo, ret, int_or_raise.
  cbn -[Py.int OsPath.join String.append]. rewrite Hk, Hp. reflexivity.
Qed.

Lemma load_line_more_tokens raw tok count third more w :
  Py.split (Py.rstrip raw) = tok :: count :: third :: more ->
  load_line cfg raw w
  = (Raise (DiarizationException (msg_columns (input_list cfg))),
     logged w [Info (msg_loading tok)]).
Proof. intros E. unfold load_line. rewrite E. reflexivity. Qed.

(** C6, at the input where the code departs from it.  A blank line of the
    manifest has no token, and the progress message, which takes the first
    token before the count of tokens is looked at, raises [IndexError]: not
    the [DiarizationException] that the lines of three or more tokens get
    (the [MalformedManifestError] of the specification), and so does the
    loading of a manifest that holds such a line. *)
Theorem load_line_blank_IndexError :
  (forall w, load_line cfg (String "010" "") w = (Raise IndexError, w)) /\
  (forall w, load_line cfg "" w = (Raise IndexError, w)) /\
  (forall rest w, fst (load_ivecs cfg (String "010" "" :: rest) w) = Raise IndexError).
Proof.
  split; [|split].
  - intros w. apply load_line_no_token. reflexivity.
  - intros w. apply load_line_no_token. reflexivity.
  - intros rest w. reflexivity.
Qed.

End DiarizationTheory.

(* ===================================================================== *)
(** ** The theorems at the concrete instance *)
(* ===================================================================== *)

#[local] Existing Instances Demo.Z_numeric Demo.collab.

Lemma Z_ltb_strict_weak_order : strict_weak_order Z.ltb.
Proof.
  split; [|split].
  - intros a. apply Z.ltb_irrefl.
  - intros a b c Hab Hbc. apply Z.ltb_lt in Hab, Hbc. apply Z.ltb_lt. lia.
  - intros a b c Hac. apply Z.ltb_lt in Hac.
    destruct (Z.ltb_spec a b); [left; reflexivity|]. right. apply Z.ltb_lt. lia.
Defined.

Example get_num_speakers_demo :
  get_num_speakers Demo.x1 2 6 (Demo.world0 []) = (Ok (3%Z, Demo.centroids3), Demo.world5).
Proof. vm_compute. reflexivity. Qed.


Lemma get_num_speakers_reuses_centroids_witness :
  get_num_speakers Demo.x1 2 6 (Demo.world0 [])
    = (Ok (3%Z, Demo.centroids3), Demo.world5) /\
  exists centroids_list features,
    get_num_speakers_loop Demo.x1 (range 2 (6 + 1)) [] [] (Demo.world0 [])
      = (Ok (centroids_list, features), Demo.world5) /\
    candidate_passes get_features Demo.x1 (range 2 (6 + 1)) (Demo.world0 [])
      centroids_list features Demo.world5 /\
    length centroids_list = length (range 2 (6 + 1)) /\
    centroids_list !! Z.to_nat (3 - 2) = Some Demo.centroids3.
Proof.
  split; [vm_compute; reflexivity|].
  apply (get_num_speakers_reuses_centroids (H := Demo.Z_numeric) (H0 := Demo.collab) Demo.x1 2 6 (Demo.world0 []) 3
           Demo.centroids3 Demo.world5).
  vm_compute. reflexivity.
Defined.

Lemma get_num_speakers_default_in_bounds_witness :
  get_num_speakers Demo.x1 2 6 (Demo.world0 [])
    = (Ok (3%Z, Demo.centroids3), Demo.world5) /\
  (2 <= 3 <= 6)%Z.
Proof.
  split; [vm_compute; reflexivity|].
  apply (get_num_speakers_default_in_bounds (H := Demo.Z_numeric) (H0 := Demo.collab) Demo.x1 (Demo.world0 []) 3
           Demo.centroids3 Demo.world5).
  vm_compute. reflexivity.
Defined.

(** At the instance the candidates three and four tie: the columns of both
    sum to 20, and three is returned. *)
Lemma get_num_speakers_tie_smallest_witness :
  strict_weak_order Z.ltb /\
  get_num_speakers Demo.x1 2 6 (Demo.world0 [])
    = (Ok (3%Z, Demo.centroids3), Demo.world5) /\
  exists centroids_list features probs,
    candidate_passes get_features Demo.x1 (range 2 (6 + 1)) (Demo.world0 [])
      centroids_list features Demo.world5 /\
    test model features true = Ok (Array2 probs) /\
    attains_max (sum_axis0 (Array2 probs)) (Z.to_nat (3 - 2)) /\
    forall j, attains_max (sum_axis0 (Array2 probs)) j -> (3 <= 2 + Z.of_nat j)%Z.
Proof.
  split; [exact Z_ltb_strict_weak_order|].
  split; [vm_compute; reflexivity|].
  apply (get_num_speakers_tie_smallest (H := Demo.Z_numeric) (H0 := Demo.collab) Demo.x1 2 6 (Demo.world0 []) 3
           Demo.centroids3 Demo.world5 Z_ltb_strict_weak_order).
  vm_compute. reflexivity.
Defined.

Lemma empty_set_skipped_witness :
  set_size Demo.empty_set = 0 /\
  (forall rest d (w : world Z nat),
     score_loop Demo.cfg_raw (Demo.empty_set :: rest) d w
     = score_loop Demo.cfg_raw rest d
         (logged w [Info (msg_scoring (OsPath.normpath (name Demo.empty_set)));
                    Warning (msg_nothing_to_score (name Demo.empty_set))])) /\
  (forall scores pos rest (w : world Z nat),
     dump_loop Demo.cfg_raw scores pos (Demo.empty_set :: rest) w
     = dump_loop Demo.cfg_raw scores (S pos) rest
         (logged w [Warning (msg_nothing_to_dump (name Demo.empty_set))])).
Proof.
  split; [reflexivity|].
  apply (empty_set_skipped Demo.cfg_raw Demo.empty_set). reflexivity.
Defined.

Lemma score_without_cohort_fails_witness :
  fst (score Demo.cfg_raw (Demo.world0 [Demo.empty_set; Demo.rec3]))
  = Raise (DiarizationException msg_cannot_estimate).
Proof.
  rewrite (score_without_cohort_fails Demo.cfg_raw [Demo.empty_set] Demo.rec3 []
             (Demo.world0 [Demo.empty_set; Demo.rec3]) ∅
             (logged (Demo.world0 [Demo.empty_set; Demo.rec3])
                [Info (msg_scoring "beamformed/empty");
                 Warning (msg_nothing_to_score "beamformed/empty")])).
  - reflexivity.
  - reflexivity.
  - vm_compute. reflexivity.
  - unfold set_size. simpl. lia.
  - reflexivity.
  - reflexivity.
Defined.

(** The scores of embedding 0 in [Demo3.scores_tall] are 1, 0 and 4, one
    from each row: its label is 2, where the first row alone would give 1. *)
Lemma labels_are_first_argmax_witness :
  strict_weak_order Z.ltb /\
  label Demo3.scores_tall "rec4" 0 = Ok 2 /\
  argmax [1; 5]%Z = Ok 1 /\
  exists m row, Demo3.scores_tall !! "rec4" = Some m /\
    column m 0 = Ok row /\
    length row = length m /\
    (forall j, row !! j = entry m (j, 0)) /\
    attains_max row 2 /\
    forall j, attains_max row j -> 2 <= j.
Proof.
  split; [exact Z_ltb_strict_weak_order|].
  split; [vm_compute; reflexivity|].
  split; [vm_compute; reflexivity|].
  destruct (labels_are_first_argmax (H := Demo.Z_numeric) (seed := nat) Z_ltb_strict_weak_order) as (L & _).
  apply (L Demo3.scores_tall "rec4" 0 2). vm_compute. reflexivity.
Defined.

(** The set named [a//rec2] is scored under [a/rec2], and looked up by
    [dump_rttm] under [a//rec2]. *)
Lemma dump_lookup_iff_normalized_witness :
  score Demo.cfg_raw (Demo.world0 [with_num_speakers Demo.rec2 2])
  = (Ok {[ "a/rec2" := [[1; 0]; [0; 4]]%Z ]},
     mkWorld [with_num_speakers Demo.rec2 2] 1
       [Info (msg_scoring "a/rec2")] [] ∅) /\
  OsPath.normpath "a//rec2" <> "a//rec2" /\
  forall pos (w2 : world Z nat),
    fst (dump_body Demo.cfg_raw {[ "a/rec2" := [[1; 0]; [0; 4]]%Z ]} pos
           (with_num_speakers Demo.rec2 2) w2)
    = Raise (KeyError "a//rec2").
Proof.
  assert (Hsc : score Demo.cfg_raw (Demo.world0 [with_num_speakers Demo.rec2 2])
                = (Ok {[ "a/rec2" := [[1; 0]; [0; 4]]%Z ]},
                   mkWorld [with_num_speakers Demo.rec2 2] 1
                     [Info (msg_scoring "a/rec2")] [] ∅))
    by (vm_compute; reflexivity).
  split; [exact Hsc|]. split; [vm_compute; discriminate|].
  intros pos w2.
  destruct (dump_lookup_iff_normalized Demo.cfg_raw _ _ _
              (with_num_speakers Demo.rec2 2) Hsc) as (_ & L).
  - apply list_elem_of_In. left. reflexivity.
  - unfold set_size. simpl. lia.
  - apply (L pos w2). vm_compute. discriminate.
Defined.

Lemma dump_rttm_renames_witness :
  dump_rttm Demo.cfg_raw Demo.scores3 (Demo.world0 [Demo.rec3; Demo.empty_set])
  = (Ok tt, Demo.world_dumped) /\
  self_ivecs Demo.world_dumped = map renamed [Demo.rec3; Demo.empty_set] /\
  map name (self_ivecs Demo.world_dumped) = ["rec3"; "beamformed/empty"].
Proof.
  assert (Hd : dump_rttm Demo.cfg_raw Demo.scores3
                 (Demo.world0 [Demo.rec3; Demo.empty_set])
               = (Ok tt, Demo.world_dumped))
    by (vm_compute; reflexivity).
  split; [exact Hd|]. split; [|reflexivity].
  destruct (dump_rttm_renames Demo.cfg_raw _ _ _ _ Hd) as ((k & _ & _ & L) & _).
  apply L. reflexivity.
Defined.

(** C9 as it is stated fails on a set without embeddings whose name contains
    [beamformed]: [dump_rttm] leaves its name as it is. *)
Lemma empty_beamformed_set_not_renamed :
  ~ renames_every_beamformed Demo.cfg_raw ∅ (Demo.world0 [Demo.empty_set]).
Proof.
  intros C. specialize (C _ eq_refl). vm_compute in C. discriminate C.
Defined.

(** After [dump_rttm] has renamed [rec3], [get_der] looks its scores up
    under the new name and does not find them. *)
Example get_der_after_dump_rttm :
  fst (get_der_hyp Demo.scores3 Demo.world_dumped) = Raise (KeyError "rec3").
Proof. vm_compute. reflexivity. Qed.

Example load_ivecs_demo :
  fst (load_ivecs Demo.cfg_raw
         ["rec1" +:+ String "010" ""; "a//rec2 2" +:+ String "010" ""; "missing"]
         (Demo.world0 []))
  = Ok [Demo.rec1; with_num_speakers Demo.rec2 2].
Proof. vm_compute. reflexivity. Qed.

Example load_ivecs_three_columns :
  fst (load_ivecs Demo.cfg_raw ["rec1 2 x"] (Demo.world0 []))
  = Raise (DiarizationException (msg_columns "list.txt")).
Proof. vm_compute. reflexivity. Qed.

(* ===================================================================== *)
(** ** Further theory: strings and names *)
(* ===================================================================== *)

Section NameTheory.

Lemma contains_cons p c s :
  Py.contains p (String c s) = String.prefix p (String c s) || Py.contains p s.
Proof. reflexivity. Qed.

Lemma prefix_empty s : String.prefix "" s = true.
Proof. destruct s; reflexivity. Qed.

Lemma prefix_char_iff a c x :
  String.prefix (String a "") (String c x) = false <-> Ascii.eqb c a = false.
Proof.
  rewrite prefix_cons, prefix_empty. destruct (ascii_dec a c) as [<-|Hne].
  - rewrite Ascii.eqb_refl. split; discriminate.
  - split; [|reflexivity]. intros _. apply Ascii.eqb_neq. congruence.
Qed.

Lemma rstrip_all_space ws : all_space ws = true -> Py.rstrip ws = "".
Proof.
  induction ws as [|c ws IH]; simpl; [reflexivity|].
  intros E. apply andb_true_iff in E as [Hc Hws].
  rewrite (IH Hws), Hc. reflexivity.
Qed.

(** [rstrip] does not see whitespace added at the end. *)
Lemma rstrip_app_space s ws :
  all_space ws = true -> Py.rstrip (s +:+ ws) = Py.rstrip s.
Proof.
  intros Hws. induction s as [|c s IH].
  - simpl. apply rstrip_all_space, Hws.
  - change (String c s +:+ ws) with (String c (s +:+ ws)).
    simpl. rewrite IH. reflexivity.
Qed.

Lemma re_sub_slash_rest_no_slash b s :
  Py.contains "/" (Py.re_sub_slash_rest b s) = false.
Proof.
  revert b. induction s as [|c s IH]; intros b; [destruct b; reflexivity|].
  simpl. destruct b.
  - destruct (Ascii.eqb c "010") eqn:Ec; [|apply IH].
    rewrite contains_cons, IH, orb_false_r. apply prefix_slash_iff.
    apply Ascii.eqb_eq in Ec. subst c. reflexivity.
  - destruct (Ascii.eqb c "/") eqn:Ec; [apply IH|].
    rewrite contains_cons, IH, orb_false_r. apply prefix_slash_iff, Ec.
Qed.

Lemma re_sub_slash_rest_one_line s :
  Py.contains (String "010" "") s = false ->
  Py.re_sub_slash_rest true s = "" /\
  Py.re_sub_slash_rest false s = hd "" (Py.split_on "/" s).
Proof.
  induction s as [|c s IH]; intros E; [split; reflexivity|].
  rewrite contains_cons in E. apply orb_false_iff in E as [Ec Es].
  apply prefix_char_iff in Ec. destruct (IH Es) as [IH1 IH2]. simpl.
  rewrite Ec. split; [exact IH1|].
  destruct (Ascii.eqb c "/"); [exact IH1|].
  rewrite IH2. destruct (Py.split_on "/" s) as [|comp comps] eqn:E;
    [destruct (split_on_nonempty _ _ E) | reflexivity].
Qed.

Lemma re_sub_drop_cons pat c s :
  Py.re_sub_drop pat 0 (String c s)
  = if Py.is_empty_str pat then String c (Py.re_sub_drop pat 0 s)
    else if String.prefix pat (String c s)
         then Py.re_sub_drop pat (String.length pat - 1) s
         else String c (Py.re_sub_drop pat 0 s).
Proof. reflexivity. Qed.

(** [re.sub] leaves a string without an occurrence of the pattern as it
    is. *)
Lemma re_sub_literal_absent pat s :
  Py.contains pat s = false -> Py.re_sub_literal pat s = s.
Proof.
  unfold Py.re_sub_literal. induction s as [|c s IH]; intros E; [reflexivity|].
  rewrite contains_cons in E. apply orb_false_iff in E as [Ep Es].
  rewrite re_sub_drop_cons, Ep, (IH Es). destruct (Py.is_empty_str pat); reflexivity.
Qed.

Lemma strip_beamformed_absent nm :
  Py.contains "beamformed/" nm = false -> strip_beamformed nm = nm.
Proof.
  intros E. unfold strip_beamformed.
  destruct (Py.contains "beamformed" nm); [|reflexivity].
  apply re_sub_literal_absent, E.
Qed.

Lemma renamed_absent {real} (s : IvecSet real) :
  Py.contains "beamformed/" (name s) = false -> renamed s = s.
Proof.
  intros E. unfold renamed.
  destruct (Nat.ltb 0 (set_size s) && Py.contains "beamformed" (name s));
    [|reflexivity].
  rewrite (re_sub_literal_absent _ _ E). destruct s; reflexivity.
Qed.

(** X19.  The group name [re.sub('/.*', '', name)] used in the RTTM lines and
    as the key of the annotations never holds a slash; for a name of one line
    it is the part of the name before its first slash. *)
Theorem reg_name_of_first_component nm :
  Py.contains "/" (reg_name_of nm) = false /\
  (Py.contains (String "010" "") nm = false ->
   reg_name_of nm = hd "" (Py.split_on "/" nm)).
Proof.
  unfold reg_name_of. split.
  - apply re_sub_slash_rest_no_slash.
  - intros E. apply (re_sub_slash_rest_one_line nm E).
Qed.

End NameTheory.

(* ===================================================================== *)
(** ** Further theory: [load_ivecs] *)
(* ===================================================================== *)

Section LoadTheory.
Context {real seed : Type} `{Numeric real} `{Collaborators real seed}.
Variable cfg : config real.
Implicit Types (w : world real seed).

Lemma rstrip_idempotent s : Py.rstrip (Py.rstrip s) = Py.rstrip s.
Proof.
  induction s as [|c s IH]; [reflexivity|]. simpl.
  destruct (Py.isspace c && Py.is_empty_str (Py.rstrip s)) eqn:E; [reflexivity|].
  simpl. rewrite IH, E. reflexivity.
Qed.

Lemma bind_ret_r {A} (c : @M real seed A) w : bind c ret w = c w.
Proof. unfold bind, ret. destruct (c w) as [[a|e] w1]; reflexivity. Qed.

Lemma logged_logged w a b : logged (logged w a) b = logged w (a ++ b).
Proof. unfold logged. simpl. rewrite <- app_assoc. reflexivity. Qed.

Lemma load_line_missing_one raw tok w :
  Py.split (Py.rstrip raw) = [tok] ->
  pickle_at (OsPath.join (ivecs_dir cfg) (Py.rstrip raw +:+ ".pkl")) = None ->
  load_line cfg raw w
  = (Ok None, logged w [Info (msg_loading tok); Warning (msg_no_pickle tok)]).
Proof.
  intros E Hp. unfold load_line, no_pickle_file. rewrite rstrip_idempotent, E.
  unfold bind, lift, loginfo, logwarning, ret.
  cbn -[OsPath.join String.append]. rewrite Hp.
  cbn -[String.append]. unfold logged. cbn -[String.append].
  rewrite <- app_assoc. reflexivity.
Qed.

Lemma load_line_missing_two raw tok count k w :
  Py.split (Py.rstrip raw) = [tok; count] ->
  Py.int count = Some k ->
  pickle_at (OsPath.join (ivecs_dir cfg) (tok +:+ ".pkl")) = None ->
  load_line cfg raw w
  = (Ok None, logged w [Info (msg_loading tok); Warning (msg_no_pickle tok)]).
Proof.
  intros E Hk Hp. unfold load_line, no_pickle_file. rewrite rstrip_idempotent, E.
  unfold bind, lift, loginfo, logwarning, ret, int_or_raise.
  cbn -[Py.int OsPath.join String.append]. rewrite Hk, Hp.
  cbn -[String.append]. unfold logged. cbn -[String.append].
  rewrite <- app_assoc. reflexivity.
Qed.

Lemma load_line_bad_count raw tok count w :
  Py.split (Py.rstrip raw) = [tok; count] ->
  Py.int count = None ->
  load_line cfg raw w = (Raise ValueError, logged w [Info (msg_loading tok)]).
Proof.
  intros E Hk. unfold load_line. rewrite E.
  unfold bind, lift, loginfo, ret, int_or_raise.
  cbn -[Py.int OsPath.join String.append]. rewrite Hk. reflexivity.
Qed.

(** What a line that does not raise has done. *)
Lemma load_line_Ok raw w y w' :
  load_line cfg raw w = (Ok y, w') ->
  exists entries, w' = logged w entries /\
    ((exists s, y = Some s /\ from_pickle s /\ length entries = 1) \/
     (y = None /\ length entries = 2)).
Proof.
  intros E. destruct (Py.split (Py.rstrip raw)) as [|t0 [|t1 [|t2 more]]] eqn:Es.
  - rewrite load_line_no_token in E by exact Es. discriminate.
  - destruct (pickle_at (OsPath.join (ivecs_dir cfg) (Py.rstrip raw +:+ ".pkl")))
      as [s|] eqn:Hp.
    + rewrite (load_line_one_token cfg raw t0 s w Es Hp) in E. inversion E; subst.
      eexists. split; [reflexivity|]. left. exists s. repeat split.
      eexists _, s. eauto.
    + rewrite (load_line_missing_one raw t0 w Es Hp) in E. inversion E; subst.
      eexists. split; [reflexivity|]. right. auto.
  - destruct (Py.int t1) as [k|] eqn:Hk.
    + destruct (pickle_at (OsPath.join (ivecs_dir cfg) (t0 +:+ ".pkl")))
        as [s|] eqn:Hp.
      * rewrite (load_line_two_tokens cfg raw t0 t1 k s w Es Hk Hp) in E.
        inversion E; subst. eexists. split; [reflexivity|]. left.
        eexists. repeat split. eexists _, s. eauto.
      * rewrite (load_line_missing_two raw t0 t1 k w Es Hk Hp) in E.
        inversion E; subst. eexists. split; [reflexivity|]. right. auto.
    + rewrite (load_line_bad_count raw t0 t1 w Es Hk) in E. discriminate.
  - rewrite (load_line_more_tokens cfg raw t0 t1 t2 more w Es) in E. discriminate.
Qed.

Lemma load_ivecs_raise_at before raw rest w sets w1 e w2 :
  load_ivecs cfg before w = (Ok sets, w1) ->
  load_line cfg raw w1 = (Raise e, w2) ->
  load_ivecs cfg (before ++ raw :: rest) w = (Raise e, w2).
Proof.
  revert w sets. induction before as [|r before IH]; intros w sets Hb Hr; simpl in *.
  - apply ret_Ok in Hb as [_ ->]. unfold bind. rewrite Hr. reflexivity.
  - apply bind_Ok in Hb as (y & wa & Hy & Hb).
    apply bind_Ok in Hb as (ys & wb & Hys & Hb). apply ret_Ok in Hb as [_ ->].
    unfold bind at 1. rewrite Hy. unfold bind at 1.
    rewrite (IH _ _ Hys Hr). reflexivity.
Qed.

(** X1.  A line of one token yields the set pickled under the name of the
    whole stripped line (leading whitespace included), as it was stored:
    [num_speakers] is not assigned. *)
Theorem load_ivecs_one_token raw tok s rest w :
  Py.split (Py.rstrip raw) = [tok] ->
  pickle_at (OsPath.join (ivecs_dir cfg) (Py.rstrip raw +:+ ".pkl")) = Some s ->
  load_ivecs cfg (raw :: rest) w
  = bind (load_ivecs cfg rest) (fun ys => ret (s :: ys))
      (logged w [Info (msg_loading tok)]).
Proof.
  intros E Hp. simpl. unfold bind at 1.
  rewrite (load_line_one_token cfg raw tok s w E Hp). reflexivity.
Qed.

(** X2.  A line of two tokens, the second one an integer, yields the set
    pickled under the first token with [num_speakers] set to that
    integer, whatever was stored there. *)
Theorem load_ivecs_two_tokens raw tok count k s rest w :
  Py.split (Py.rstrip raw) = [tok; count] ->
  Py.int count = Some k ->
  pickle_at (OsPath.join (ivecs_dir cfg) (tok +:+ ".pkl")) = Some s ->
  load_ivecs cfg (raw :: rest) w
  = bind (load_ivecs cfg rest)
      (fun ys => ret ({| name := name s; num_speakers := Some k; ivecs := ivecs s |} :: ys))
      (logged w [Info (msg_loading tok)]).
Proof.
  intros E Hk Hp. simpl. unfold bind at 1.
  rewrite (load_line_two_tokens cfg raw tok count k s w E Hk Hp). reflexivity.
Qed.

(** X3.  A line whose pickle file cannot be opened is skipped with a
    warning, and the loading goes on with the lines after it. *)
Theorem load_ivecs_skips_missing raw tok rest w :
  (Py.split (Py.rstrip raw) = [tok] /\
   pickle_at (OsPath.join (ivecs_dir cfg) (Py.rstrip raw +:+ ".pkl")) = None) \/
  (exists count k, Py.split (Py.rstrip raw) = [tok; count] /\
     Py.int count = Some k /\
     pickle_at (OsPath.join (ivecs_dir cfg) (tok +:+ ".pkl")) = None) ->
  load_ivecs cfg (raw :: rest) w
  = load_ivecs cfg rest
      (logged w [Info (msg_loading tok); Warning (msg_no_pickle tok)]).
Proof.
  intros Hc. simpl. unfold bind at 1.
  assert (E : load_line cfg raw w
              = (Ok None, logged w [Info (msg_loading tok);
                                    Warning (msg_no_pickle tok)])).
  { destruct Hc as [[E Hp]|(count & k & E & Hk & Hp)].
    - apply load_line_missing_one; assumption.
    - eapply load_line_missing_two; eassumption. }
  rewrite E. apply bind_ret_r.
Qed.

(** X4.  A line of two tokens whose second token is not an integer makes
    [load_ivecs] raise [ValueError], wherever the line stands and whether or
    not its pickle file exists; the sets loaded before it are not returned. *)
Theorem load_ivecs_bad_count before raw tok count rest w sets w1 :
  load_ivecs cfg before w = (Ok sets, w1) ->
  Py.split (Py.rstrip raw) = [tok; count] ->
  Py.int count = None ->
  load_ivecs cfg (before ++ raw :: rest) w
  = (Raise ValueError, logged w1 [Info (msg_loading tok)]).
Proof.
  intros Hb E Hk. eapply load_ivecs_raise_at; [exact Hb|].
  eapply load_line_bad_count; eassumption.
Qed.

(** X5.  A line of three or more tokens makes [load_ivecs] raise the
    [DiarizationException] that names the input list, wherever the line
    stands; the sets loaded before it are not returned. *)
Theorem load_ivecs_too_many_tokens before raw tok count third more rest w sets w1 :
  load_ivecs cfg before w = (Ok sets, w1) ->
  Py.split (Py.rstrip raw) = tok :: count :: third :: more ->
  load_ivecs cfg (before ++ raw :: rest) w
  = (Raise (DiarizationException (msg_columns (input_list cfg))),
     logged w1 [Info (msg_loading tok)]).
Proof.
  intros Hb E. eapply load_ivecs_raise_at; [exact Hb|].
  eapply load_line_more_tokens; eassumption.
Qed.

(** X6.  Whitespace at the end of a manifest line, its newline included,
    makes no difference to what is loaded. *)
Theorem load_ivecs_trailing_whitespace raw ws rest w :
  all_space ws = true ->
  load_line cfg (raw +:+ ws) w = load_line cfg raw w /\
  load_ivecs cfg ((raw +:+ ws) :: rest) w = load_ivecs cfg (raw :: rest) w.
Proof.
  intros Hws.
  assert (E : load_line cfg (raw +:+ ws) w = load_line cfg raw w).
  { unfold load_line. rewrite rstrip_app_space by exact Hws. reflexivity. }
  split; [exact E|]. simpl. unfold bind at 1 3. rewrite E. reflexivity.
Qed.

(** X7.  When [load_ivecs] returns, every set it returns is one of the
    pickled sets (as stored, or with [num_speakers] assigned), there are at
    most as many sets as lines, the log has gained one line per manifest line
    and one more per line skipped, and nothing else has changed. *)
Theorem load_ivecs_Ok lines w sets w' :
  load_ivecs cfg lines w = (Ok sets, w') ->
  Forall from_pickle sets /\
  length sets <= length lines /\
  (exists entries, w' = logged w entries /\
     length entries + length sets = 2 * length lines).
Proof.
  revert w sets w'. induction lines as [|raw lines IH]; intros w sets w' E; simpl in E.
  - apply ret_Ok in E as [-> ->]. split; [constructor|]. split; [simpl; lia|].
    exists []. split; [|reflexivity]. unfold logged. rewrite app_nil_r.
    destruct w; reflexivity.
  - apply bind_Ok in E as (y & wa & Hy & E).
    apply bind_Ok in E as (ys & wb & Hys & E). apply ret_Ok in E as [-> ->].
    apply load_line_Ok in Hy as (e1 & -> & Hy).
    apply IH in Hys as (Hf & Hlen & e2 & -> & He2).
    rewrite logged_logged.
    destruct Hy as [(s & -> & Hs & Hl)|[-> Hl]].
    + split; [constructor; assumption|]. split; [simpl; lia|].
      eexists. split; [reflexivity|]. rewrite length_app. simpl. lia.
    + split; [assumption|]. split; [simpl; lia|].
      eexists. split; [reflexivity|]. rewrite length_app. simpl. lia.
Qed.

End LoadTheory.

(* ===================================================================== *)
(** ** Further theory: what the methods leave alone *)
(* ===================================================================== *)

Section FrameTheory.
Context {real seed : Type} `{Numeric real} `{Collaborators real seed}.
Variable cfg : config real.
Implicit Types (w : world real seed).

Lemma same_but_rng_refl w : same_but_rng w w.
Proof. repeat split. Qed.

Lemma same_but_rng_trans w1 w2 w3 :
  same_but_rng w1 w2 -> same_but_rng w2 w3 -> same_but_rng w1 w3.
Proof.
  intros (A1 & A2 & A3 & A4) (B1 & B2 & B3 & B4).
  repeat split; congruence.
Qed.

Lemma same_but_rng_log_refl w : same_but_rng_log w w.
Proof. repeat split. Qed.

Lemma same_but_rng_log_trans w1 w2 w3 :
  same_but_rng_log w1 w2 -> same_but_rng_log w2 w3 -> same_but_rng_log w1 w3.
Proof.
  intros (A1 & A2 & A3) (B1 & B2 & B3). repeat split; congruence.
Qed.

Lemma same_but_rng_weaken w w' : same_but_rng w w' -> same_but_rng_log w w'.
Proof. intros (A1 & A2 & A3 & A4). repeat split; assumption. Qed.

(** A relation between worlds that is kept by the two parts of a sequence
    is kept by the sequence, whether it returns or raises. *)
Lemma bind_frame (R : world real seed -> world real seed -> Prop) {A B}
    (c : @M real seed A) (k : A -> @M real seed B) :
  (forall w1 w2 w3, R w1 w2 -> R w2 w3 -> R w1 w3) ->
  (forall w, R w (snd (c w))) ->
  (forall a w, R w (snd (k a w))) ->
  forall w, R w (snd (bind c k w)).
Proof.
  intros Htrans Hc Hk w. unfold bind. specialize (Hc w).
  destruct (c w) as [[a|e] w1]; simpl in *.
  - eapply Htrans; [exact Hc | apply Hk].
  - exact Hc.
Qed.

Lemma with_rng_frame {A} (f : seed -> result A * seed) w :
  same_but_rng w (snd (with_rng f w)).
Proof. unfold with_rng. destruct (f (rng w)). repeat split. Qed.

Lemma cluster_frame n x w : same_but_rng w (snd (cluster n x w)).
Proof.
  unfold cluster. apply (bind_frame same_but_rng).
  - apply same_but_rng_trans.
  - intros w0. apply with_rng_frame.
  - intros a w0. apply with_rng_frame.
Qed.

Lemma lift_frame (R : world real seed -> world real seed -> Prop) {A}
    (r : result A) w : (forall w0, R w0 w0) -> R w (snd (lift r w)).
Proof. intros Hrefl. apply Hrefl. Qed.

Lemma get_num_speakers_loop_frame x cands cl fs w :
  same_but_rng w (snd (get_num_speakers_loop x cands cl fs w)).
Proof.
  revert cl fs w. induction cands as [|n rest IH]; intros cl fs w; simpl.
  - apply same_but_rng_refl.
  - apply (bind_frame same_but_rng); [apply same_but_rng_trans | apply cluster_frame |].
    intros c w1.
    repeat (apply (bind_frame same_but_rng);
            [apply same_but_rng_trans
            | intros ?; apply same_but_rng_refl
            | intros ? ?; cbv beta]).
    apply IH.
Qed.

Lemma get_num_speakers_frame x lo hi w :
  same_but_rng w (snd (get_num_speakers x lo hi w)).
Proof.
  unfold get_num_speakers.
  apply (bind_frame same_but_rng);
    [apply same_but_rng_trans | intros w0; apply get_num_speakers_loop_frame |].
  intros acc w1.
  repeat (apply (bind_frame same_but_rng);
          [apply same_but_rng_trans
          | intros ?; apply same_but_rng_refl
          | intros ? ?; cbv beta]).
  apply same_but_rng_refl.
Qed.

Lemma logged_frame w es : same_but_rng_log w (logged w es).
Proof. repeat split. Qed.

Lemma centroids_frame (s : IvecSet real) w :
  same_but_rng w
    (snd (match num_speakers s with
          | Some n => cluster n (get_all s)
          | None =>
              match norm_ivecs cfg with
              | Some _ => bind (get_num_speakers (get_all s) 2 6)
                            (fun r => ret (snd r))
              | None => raise (DiarizationException msg_cannot_estimate)
              end
          end w)).
Proof.
  destruct (num_speakers s) as [n|]; [apply cluster_frame|].
  destruct (norm_ivecs cfg); [|apply same_but_rng_refl].
  apply (bind_frame same_but_rng);
    [apply same_but_rng_trans | intros w0; apply get_num_speakers_frame |].
  intros r w0. apply same_but_rng_refl.
Qed.

Lemma score_body_frame d (s : IvecSet real) w :
  same_but_rng_log w (snd (score_body cfg d s w)).
Proof.
  unfold score_body. apply (bind_frame same_but_rng_log).
  - apply same_but_rng_log_trans.
  - intros w0. apply (logged_frame w0 [_]).
  - intros [] w0. destruct (Nat.ltb 0 (set_size s)).
    + apply (bind_frame same_but_rng_log); [apply same_but_rng_log_trans | |].
      * intros w1. apply same_but_rng_weaken, centroids_frame.
      * intros c w1. apply (bind_frame same_but_rng_log);
          [apply same_but_rng_log_trans
          | intros w2; apply same_but_rng_log_refl
          | intros m w2; apply same_but_rng_log_refl].
    + apply (bind_frame same_but_rng_log);
        [apply same_but_rng_log_trans
        | intros w1; apply (logged_frame w1 [_])
        | intros [] w1; apply same_but_rng_log_refl].
Qed.

Lemma score_loop_frame sets d w :
  same_but_rng_log w (snd (score_loop cfg sets d w)).
Proof.
  revert d w. induction sets as [|s sets IH]; intros d w; simpl.
  - apply same_but_rng_log_refl.
  - apply (bind_frame same_but_rng_log);
      [apply same_but_rng_log_trans | intros w0; apply score_body_frame |].
    intros d' w0. apply IH.
Qed.

Lemma score_keeps w : same_but_rng_log w (snd (score cfg w)).
Proof.
  unfold score. apply (bind_frame same_but_rng_log);
    [apply same_but_rng_log_trans | intros w0; apply same_but_rng_log_refl |].
  intros sets w0. apply score_loop_frame.
Qed.

(** X11.  The keys of the dictionary that [score] returns are exactly the
    normalized names of the sets with embeddings, so two such sets whose
    names normalize to the same path share one entry; every key is a
    normalized path itself. *)
Theorem score_dictionary_keys w d w' :
  score cfg w = (Ok d, w') ->
  (forall key, is_Some (d !! key) <->
     exists s, s ∈ self_ivecs w /\ nonempty_set s = true /\
               OsPath.normpath (name s) = key) /\
  (forall key, is_Some (d !! key) -> OsPath.normpath key = key).
Proof.
  intros E. split.
  - intros key. rewrite (score_keys cfg _ _ _ E key). unfold nonempty_set.
    split; intros (s & Hin & Hs & Hk); exists s; repeat split; auto;
      apply Nat.ltb_lt; exact Hs.
  - intros key Hk. apply (score_keys cfg _ _ _ E key) in Hk as (s & _ & _ & <-).
    apply normpath_idempotent.
Qed.

End FrameTheory.

(* ===================================================================== *)
(** ** Further theory: [get_num_speakers] off the normal path *)
(* ===================================================================== *)

Section EstimationTheory.
Context {real seed : Type} `{Numeric real} `{Collaborators real seed}.
Implicit Types (w : world real seed).

(** With [max_speakers] below [min_speakers] there is no candidate, and
    [get_num_speakers] cannot return: whatever the classifier answers to the
    empty list of features, no centroids are stored to be returned. *)
Lemma get_num_speakers_empty_range x lo hi w n c w' :
  (hi < lo)%Z -> get_num_speakers x lo hi w <> (Ok (n, c), w').
Proof.
  intros Hlt E. apply get_num_speakers_in_bounds in E. lia.
Qed.

(** X12.  When the classifier knows more classes than there are candidates
    and its best column lies beyond them, [get_num_speakers] raises
    [IndexError] on [centroids_list], after all the clustering has been
    done. *)
Theorem get_num_speakers_class_out_of_range x lo hi w cl fs w' probs k :
  candidate_passes get_features x (range lo (hi + 1)) w cl fs w' ->
  test model fs true = Ok (Array2 probs) ->
  argmax (sum_axis0 (Array2 probs)) = Ok k ->
  length (range lo (hi + 1)) <= k ->
  get_num_speakers x lo hi w = (Raise IndexError, w').
Proof.
  intros Hp Ht Ha Hk. unfold get_num_speakers.
  assert (El : get_num_speakers_loop x (range lo (hi + 1)) [] [] w
               = (Ok (cl, fs), w')).
  { apply get_num_speakers_loop_passes. exists cl, fs. auto. }
  unfold bind at 1. rewrite El. simpl.
  unfold bind at 1, lift at 1. rewrite Ht.
  unfold bind at 1, lift at 1. rewrite Ha.
  unfold bind at 1, lift at 1, list_index.
  apply candidate_passes_length in Hp as [Hl _].
  rewrite (lookup_ge_None_2 cl k) by lia. reflexivity.
Qed.

Lemma get_num_speakers_loop_app x pre rest cl0 fs0 w cl1 fs1 w1 :
  get_num_speakers_loop x pre cl0 fs0 w = (Ok (cl1, fs1), w1) ->
  get_num_speakers_loop x (pre ++ rest) cl0 fs0 w
  = get_num_speakers_loop x rest cl1 fs1 w1.
Proof.
  revert cl0 fs0 w. induction pre as [|n pre IH]; intros cl0 fs0 w; simpl.
  - intros E. apply ret_Ok in E as [E ->]. inversion E; subst. reflexivity.
  - unfold bind at 1 6. destruct (cluster n x w) as [[c|e] wa]; [|discriminate].
    unfold bind at 1 5, lift at 1 5. destruct (s_norm c c) as [sn|e]; [|discriminate].
    unfold bind at 1 4, lift at 1 4. destruct (tril_indices n) as [idx|e]; [|discriminate].
    unfold bind at 1 3, lift at 1 3. destruct (fancy_index sn idx) as [tr|e]; [|discriminate].
    unfold bind at 1 2, lift at 1 2. destruct (get_features tr) as [f|e]; [|discriminate].
    apply IH.
Qed.

(** X13.  When the clustering fails for one of the candidates, after the
    passes of the candidates before it, [get_num_speakers] raises the
    exception of the clustering: the classifier is not asked. *)
Theorem get_num_speakers_cluster_failure x lo hi w pre n post cl fs w1 e w2 :
  range lo (hi + 1) = pre ++ n :: post ->
  candidate_passes get_features x pre w cl fs w1 ->
  cluster n x w1 = (Raise e, w2) ->
  get_num_speakers x lo hi w = (Raise e, w2).
Proof.
  intros Hr Hp Hc. unfold get_num_speakers. rewrite Hr.
  assert (El : get_num_speakers_loop x pre [] [] w = (Ok (cl, fs), w1)).
  { apply get_num_speakers_loop_passes. exists cl, fs. auto. }
  unfold bind at 1. rewrite (get_num_speakers_loop_app _ _ _ _ _ _ _ _ _ El).
  simpl. unfold bind at 1. rewrite Hc. reflexivity.
Qed.

End EstimationTheory.

(* ===================================================================== *)
(** ** Further theory: the files of [dump_rttm] *)
(* ===================================================================== *)

Section DumpTheory.
Context {real seed : Type} `{Numeric real} `{Collaborators real seed}.
Variable cfg : config real.
Implicit Types (w : world real seed).

Lemma write_lines_effects scores nm reg path i l w :
  let w' := snd (write_lines scores nm reg path i l w) in
  rng w' = rng w /\ log w' = log w /\ made_dirs w' = made_dirs w /\
  (forall p, p <> path -> files w' !! p = files w !! p) /\
  (forall p, is_Some (files w !! p) -> is_Some (files w' !! p)).
Proof.
  cbv zeta. revert i w. induction l as [|ivec l IH]; intros i w.
  - simpl. repeat split; auto.
  - cbn [write_lines]. unfold bind, lift, file_write.
    destruct (label scores nm i) as [k|e]; [|simpl; repeat split; auto].
    cbv beta iota.
    match goal with |- context [write_lines _ _ _ _ _ _ ?w0] =>
      destruct (IH (S i) w0) as (A1 & A2 & A3 & A4 & A5) end.
    cbn [rng log made_dirs files] in A1, A2, A3, A4, A5.
    repeat split; auto.
    + intros p Hp. rewrite (A4 p Hp). apply lookup_insert_ne. congruence.
    + intros p Hp. apply A5. apply lookup_insert_is_Some'. auto.
Qed.

Lemma write_lines_content scores nm reg path i l w w' old :
  write_lines scores nm reg path i l w = (Ok tt, w') ->
  files w !! path = Some old ->
  exists ks,
    Forall2 (fun j k => label scores nm j = Ok k) (seq i (length l)) ks /\
    files w' !! path
    = Some (old ++ zip_with (fun ivec k => RttmLine reg (window_start ivec)
                                             (window_end ivec - window_start ivec) k)
                      l ks).
Proof.
  revert i w old. induction l as [|ivec l IH]; intros i w old E Hold; simpl in E.
  - apply ret_Ok in E as [_ ->]. exists []. split; [constructor|].
    simpl. rewrite app_nil_r. exact Hold.
  - apply bind_Ok in E as (k & w1 & Hk & E). apply lift_Ok in Hk as [Hk ->].
    apply bind_Ok in E as ([] & w2 & Hw & E).
    unfold file_write in Hw. inversion Hw; subst; clear Hw.
    eapply IH in E as (ks & Hks & Hf);
      [|simpl; rewrite lookup_insert_eq; reflexivity].
    exists (k :: ks). split; [constructor; assumption|].
    rewrite Hf, Hold. simpl. rewrite <- app_assoc. reflexivity.
Qed.

(** The world in which the inner loop of [dump_rttm] starts, for a set with
    embeddings. *)
Lemma dump_body_nonempty scores pos (s : IvecSet real) w :
  nonempty_set s = true ->
  exists w0,
    dump_body cfg scores pos s w
    = write_lines scores (name s) (reg_name_of (strip_beamformed (name s)))
        (rttm_path cfg (name s)) 0 (ivecs s) w0 /\
    self_ivecs w0
    = (if Py.contains "beamformed" (name s)
       then alter (fun s0 => with_name s0 (Py.re_sub_literal "beamformed/" (name s)))
              pos (self_ivecs w)
       else self_ivecs w) /\
    rng w0 = rng w /\ log w0 = log w /\
    made_dirs w0
    = made_dirs w ++ [OsPath.join (out_dir cfg) (OsPath.dirname (name s))] /\
    files w0 = <[rttm_path cfg (name s) := []]> (files w).
Proof.
  intros Hs. unfold nonempty_set in Hs. unfold dump_body. rewrite Hs.
  destruct (Py.contains "beamformed" (name s)); eexists;
    (split; [unfold bind, set_name, ret, mkdir_p, open_w; reflexivity|]);
    simpl; auto.
Qed.

Lemma dump_body_empty scores pos (s : IvecSet real) w :
  nonempty_set s = false ->
  dump_body cfg scores pos s w
  = (Ok tt, logged w [Warning (msg_nothing_to_dump (name s))]).
Proof.
  intros Hs. unfold nonempty_set in Hs. unfold dump_body. rewrite Hs. reflexivity.
Qed.

(** X14.  A round of [dump_rttm] that returns, for a set with embeddings,
    leaves in the file [<out_dir>/<name>.rttm] one line per embedding, in
    order: the group name, the start of the window, its length and the label
    of the embedding; what the file held before is gone, and no other file is
    touched. *)
Theorem dump_body_writes_file scores pos (s : IvecSet real) w w' :
  nonempty_set s = true ->
  dump_body cfg scores pos s w = (Ok tt, w') ->
  (exists ks,
     Forall2 (fun i k => label scores (name s) i = Ok k)
       (seq 0 (set_size s)) ks /\
     files w' !! rttm_path cfg (name s)
     = Some (zip_with
               (fun ivec k =>
                  RttmLine (reg_name_of (strip_beamformed (name s)))
                    (window_start ivec) (window_end ivec - window_start ivec) k)
               (ivecs s) ks)) /\
  (forall p, p <> rttm_path cfg (name s) -> files w' !! p = files w !! p).
Proof.
  intros Hs E. destruct (dump_body_nonempty scores pos s w Hs)
    as (w0 & E0 & _ & _ & _ & _ & Hf).
  rewrite E0 in E. split.
  - eapply write_lines_content in E as (ks & Hks & Hc);
      [|rewrite Hf; apply lookup_insert_eq].
    exists ks. split; [exact Hks | exact Hc].
  - intros p Hp.
    pose proof (write_lines_effects scores (name s)
                  (reg_name_of (strip_beamformed (name s)))
                  (rttm_path cfg (name s)) 0 (ivecs s) w0) as (_ & _ & _ & A4 & _).
    rewrite E in A4. simpl in A4. rewrite (A4 p Hp), Hf.
    apply lookup_insert_ne. congruence.
Qed.

(** X15.  When the dictionary has no scores under the name of a set with
    embeddings, the round of [dump_rttm] raises [KeyError] with what it did
    before in place: the directory made, the file created and empty, and the
    name already rewritten. *)
Theorem dump_body_missing_scores scores pos (s : IvecSet real) w :
  nonempty_set s = true ->
  scores !! name s = None ->
  exists w',
    dump_body cfg scores pos s w = (Raise (KeyError (name s)), w') /\
    files w' = <[rttm_path cfg (name s) := []]> (files w) /\
    made_dirs w'
    = made_dirs w ++ [OsPath.join (out_dir cfg) (OsPath.dirname (name s))] /\
    self_ivecs w'
    = (if Py.contains "beamformed" (name s)
       then alter (fun s0 => with_name s0 (Py.re_sub_literal "beamformed/" (name s)))
              pos (self_ivecs w)
       else self_ivecs w).
Proof.
  intros Hs Hn. destruct (dump_body_nonempty scores pos s w Hs)
    as (w0 & E0 & Hi & _ & _ & Hd & Hf).
  exists w0. rewrite E0. repeat split; auto.
  unfold nonempty_set, set_size in Hs. destruct (ivecs s) as [|ivec l];
    [discriminate|].
  simpl. unfold bind, lift, label, lookup_scores. rewrite Hn. reflexivity.
Qed.

Lemma dump_body_effects scores pos (s : IvecSet real) w :
  let w' := snd (dump_body cfg scores pos s w) in
  rng w' = rng w /\
  (forall p, (nonempty_set s = true -> p <> rttm_path cfg (name s)) ->
             files w' !! p = files w !! p) /\
  (forall p, is_Some (files w !! p) -> is_Some (files w' !! p)).
Proof.
  destruct (nonempty_set s) eqn:Hs.
  - destruct (dump_body_nonempty scores pos s w Hs)
      as (w0 & E0 & _ & Hr & _ & _ & Hf).
    rewrite E0.
    pose proof (write_lines_effects scores (name s)
                  (reg_name_of (strip_beamformed (name s)))
                  (rttm_path cfg (name s)) 0 (ivecs s) w0) as (A1 & _ & _ & A4 & A5).
    simpl in *. repeat split.
    + congruence.
    + intros p Hp. rewrite (A4 p (Hp eq_refl)), Hf.
      apply lookup_insert_ne. intros C. apply (Hp eq_refl). congruence.
    + intros p Hp. apply A5. rewrite Hf. apply lookup_insert_is_Some'. auto.
  - rewrite (dump_body_empty scores pos s w Hs). simpl. auto.
Qed.

Lemma dump_loop_effects scores pos sets w :
  let w' := snd (dump_loop cfg scores pos sets w) in
  rng w' = rng w /\
  (forall p, (forall s, s ∈ sets -> nonempty_set s = true ->
                        p <> rttm_path cfg (name s)) ->
             files w' !! p = files w !! p) /\
  (forall p, is_Some (files w !! p) -> is_Some (files w' !! p)).
Proof.
  revert pos w. induction sets as [|s sets IH]; intros pos w; simpl.
  - auto.
  - pose proof (dump_body_effects scores pos s w) as (B1 & B2 & B3).
    unfold bind. destruct (dump_body cfg scores pos s w) as [[[]|e] w1]; simpl in *.
    + destruct (IH (S pos) w1) as (C1 & C2 & C3). repeat split.
      * congruence.
      * intros p Hp. rewrite C2, B2; [reflexivity | |].
        -- intros Hs. apply Hp; [left | exact Hs].
        -- intros s' Hin. apply Hp. right. exact Hin.
      * intros p Hp. apply C3, B3, Hp.
    + repeat split; auto. intros p Hp. apply B2. intros Hs.
      apply Hp; [left | exact Hs].
Qed.

(** X16.  Whatever its outcome, [dump_rttm] leaves the random state as it
    is, removes no file, and touches no file other than the RTTM files of the
    sets with embeddings. *)
Theorem dump_rttm_files_frame scores w :
  let w' := snd (dump_rttm cfg scores w) in
  rng w' = rng w /\
  (forall p, (forall s, s ∈ self_ivecs w -> nonempty_set s = true ->
                        p <> rttm_path cfg (name s)) ->
             files w' !! p = files w !! p) /\
  (forall p, is_Some (files w !! p) -> is_Some (files w' !! p)).
Proof.
  unfold dump_rttm, get_self_ivecs. unfold bind at 1.
  apply (dump_loop_effects scores 0 (self_ivecs w) w).
Qed.

Lemma dump_loop_Ok scores pos sets w w' :
  dump_loop cfg scores pos sets w = (Ok tt, w') ->
  log w' = log w ++ dump_log sets /\
  made_dirs w'
  = made_dirs w
    ++ map (fun s => OsPath.join (out_dir cfg) (OsPath.dirname (name s)))
         (List.filter nonempty_set sets) /\
  (forall s, s ∈ sets -> nonempty_set s = true ->
             is_Some (scores !! name s) /\
             is_Some (files w' !! rttm_path cfg (name s))).
Proof.
  revert pos w. induction sets as [|s sets IH]; intros pos w E; simpl in E.
  - apply ret_Ok in E as [_ ->]. simpl. rewrite !app_nil_r.
    split; [reflexivity|]. split; [reflexivity|].
    intros s0 Hs0. apply elem_of_nil in Hs0 as [].
  - apply bind_Ok in E as ([] & w1 & Hb & E).
    pose proof (dump_loop_effects scores (S pos) sets w1) as (_ & _ & Keep).
    rewrite E in Keep. simpl in Keep.
    apply IH in E as (El & Ed & Es).
    unfold dump_log in *. cbn [flat_map List.filter].
    destruct (nonempty_set s) eqn:Hs.
    + destruct (dump_body_nonempty scores pos s w Hs)
        as (w0 & E0 & _ & _ & Hl & Hd & Hf).
      rewrite E0 in Hb.
      pose proof (write_lines_effects scores (name s)
                    (reg_name_of (strip_beamformed (name s)))
                    (rttm_path cfg (name s)) 0 (ivecs s) w0) as (_ & A2 & A3 & _ & A5).
      rewrite Hb in A2, A3, A5. simpl in A2, A3, A5.
      split; [rewrite El, A2, Hl; reflexivity|].
      split; [rewrite Ed, A3, Hd, <- app_assoc; reflexivity|].
      intros s' Hin Hs'. apply elem_of_cons in Hin as [->|Hin]; [|auto].
      split.
      * unfold nonempty_set, set_size in Hs.
        destruct (ivecs s) as [|ivec l] eqn:Ei; [discriminate|].
        simpl in Hb. apply bind_Ok in Hb as (k & w2 & Hk & _).
        apply lift_Ok in Hk as [Hk _].
        apply label_Ok in Hk as (m & _ & Hm & _). rewrite Hm. eauto.
      * apply Keep, A5. rewrite Hf. apply lookup_insert_is_Some'. auto.
    + rewrite (dump_body_empty scores pos s w Hs) in Hb. inversion Hb; subst w1.
      simpl in El, Ed.
      split; [rewrite El, <- app_assoc; reflexivity|].
      split; [exact Ed|].
      intros s' Hin Hs'. apply elem_of_cons in Hin as [->|Hin]; [congruence|auto].
Qed.

(** X17.  When [dump_rttm] returns: the scores of every set with embeddings
    were found under its raw name and its RTTM file exists; one directory was
    made per such set, for the directory part of its raw name below
    [out_dir], in the order of [self.ivecs]; and the log has gained exactly
    the warnings for the sets of size 0. *)
Theorem dump_rttm_Ok scores w w' :
  dump_rttm cfg scores w = (Ok tt, w') ->
  log w' = log w ++ dump_log (self_ivecs w) /\
  made_dirs w'
  = made_dirs w
    ++ map (fun s => OsPath.join (out_dir cfg) (OsPath.dirname (name s)))
         (List.filter nonempty_set (self_ivecs w)) /\
  (forall s, s ∈ self_ivecs w -> nonempty_set s = true ->
             is_Some (scores !! name s) /\
             is_Some (files w' !! rttm_path cfg (name s))).
Proof.
  unfold dump_rttm, get_self_ivecs. unfold bind at 1. apply dump_loop_Ok.
Qed.

(** X18.  [dump_rttm] run on the dictionary that [score] has just returned
    can only return when the name of every set with embeddings is a
    normalized path. *)
Theorem dump_rttm_after_score w d w1 w2 (s : IvecSet real) :
  score cfg w = (Ok d, w1) ->
  dump_rttm cfg d w1 = (Ok tt, w2) ->
  s ∈ self_ivecs w -> nonempty_set s = true ->
  OsPath.normpath (name s) = name s.
Proof.
  intros Hsc Hd Hin Hs.
  pose proof (score_keeps cfg w) as (Hi & _). rewrite Hsc in Hi. simpl in Hi.
  unfold dump_rttm, get_self_ivecs in Hd. unfold bind at 1 in Hd.
  apply dump_loop_Ok in Hd as (_ & _ & Hd).
  rewrite Hi in Hd. destruct (Hd s Hin Hs) as [Hk _].
  apply (score_keys cfg _ _ _ Hsc) in Hk as (s' & _ & _ & E).
  rewrite <- E. apply normpath_idempotent.
Qed.

(** X20.  When no name in [self.ivecs] contains [beamformed/], [dump_rttm]
    leaves [self.ivecs] exactly as it is, whatever its outcome. *)
Theorem dump_rttm_keeps_plain_names scores w :
  (forall s, s ∈ self_ivecs w -> Py.contains "beamformed/" (name s) = false) ->
  self_ivecs (snd (dump_rttm cfg scores w)) = self_ivecs w.
Proof.
  intros Hplain. unfold dump_rttm, get_self_ivecs. unfold bind at 1.
  destruct (dump_loop cfg scores 0 (self_ivecs w) w) as [res w'] eqn:E.
  apply (dump_loop_ivecs cfg scores (self_ivecs w) [] w) in E
    as (k & _ & Hw & _); [|reflexivity].
  simpl in *. rewrite Hw.
  rewrite <- (take_drop k (self_ivecs w)) at 3. f_equal.
  assert (G : forall l : list (IvecSet real),
            (forall s, s ∈ l -> Py.contains "beamformed/" (name s) = false) ->
            map renamed l = l).
  { induction l as [|a l IH]; intros Hl; [reflexivity|]. simpl.
    rewrite renamed_absent by (apply Hl; left).
    rewrite IH; [reflexivity|]. intros s Hs. apply Hl. right. exact Hs. }
  apply G. intros s Hs. apply Hplain.
  apply (subseteq_take k (self_ivecs w) s Hs).
Qed.

(** X21.  For a set whose name starts with a slash, the RTTM file is written
    at [<name>.rttm] itself: [out_dir] plays no part. *)
Theorem dump_body_absolute_name scores pos (s : IvecSet real) w w' :
  nonempty_set s = true ->
  Py.startswith (name s) "/" = true ->
  dump_body cfg scores pos s w = (Ok tt, w') ->
  rttm_path cfg (name s) = name s +:+ ".rttm" /\
  is_Some (files w' !! (name s +:+ ".rttm")).
Proof.
  intros Hs Ha E.
  assert (Ep : rttm_path cfg (name s) = name s +:+ ".rttm").
  { unfold rttm_path, OsPath.join.
    assert (Hp : Py.startswith (name s +:+ ".rttm") "/" = true).
    { unfold Py.startswith in *. destruct (name s) as [|c nm]; [discriminate|].
      change (String c nm +:+ ".rttm") with (String c (nm +:+ ".rttm")).
      rewrite prefix_cons in *. destruct (ascii_dec "/" c); [|discriminate].
      apply prefix_empty. }
    rewrite Hp. reflexivity. }
  split; [exact Ep|]. rewrite <- Ep.
  destruct (dump_body_nonempty scores pos s w Hs)
    as (w0 & E0 & _ & _ & _ & _ & Hf).
  pose proof (write_lines_effects scores (name s)
                (reg_name_of (strip_beamformed (name s)))
                (rttm_path cfg (name s)) 0 (ivecs s) w0) as (_ & _ & _ & _ & A5).
  rewrite <- E0, E in A5. simpl in A5. apply A5. rewrite Hf.
  apply lookup_insert_is_Some'. auto.
Qed.

End DumpTheory.

(* ===================================================================== *)
(** ** Further theory: [init_annotations] and [get_der] *)
(* ===================================================================== *)

Section AnnotationTheory.
Context {real seed : Type} `{Numeric real} `{Collaborators real seed}
        `{FloatSyntax real}.
Variable cfg : config real.
Implicit Types (w : world real seed).

Lemma init_annotations_loop_keys (sets : list (IvecSet real)) keys0 key :
  key ∈ init_annotations_loop sets keys0 <->
  key ∈ keys0 \/
  exists s, s ∈ sets /\ nonempty_set s = true /\
            reg_name_of (strip_beamformed (name s)) = key.
Proof.
  revert keys0. induction sets as [|s sets IH]; intros keys0; simpl.
  - split; [auto|]. intros [Hk|(s & Hs & _)]; [exact Hk|].
    apply elem_of_nil in Hs as [].
  - unfold nonempty_set in *. destruct (Nat.ltb 0 (set_size s)) eqn:Hs;
      rewrite IH; split.
    + intros [Hk|(s' & Hin & Hs' & E)].
      * apply elem_of_union in Hk as [Hk|Hk]; [|auto].
        apply elem_of_singleton in Hk. right. exists s. split; [left|]; auto.
      * right. exists s'. split; [right|]; auto.
    + intros [Hk|(s' & Hin & Hs' & E)].
      * left. apply elem_of_union. auto.
      * apply elem_of_cons in Hin as [->|Hin].
        -- left. apply elem_of_union. left. apply elem_of_singleton. auto.
        -- right. exists s'. auto.
    + intros [Hk|(s' & Hin & Hs' & E)]; [auto|].
      right. exists s'. split; [right|]; auto.
    + intros [Hk|(s' & Hin & Hs' & E)]; [auto|].
      apply elem_of_cons in Hin as [->|Hin]; [congruence|].
      right. exists s'. auto.
Qed.

(** X22.  [init_annotations] changes nothing and always returns; its keys
    are exactly the group names of the sets with embeddings, and none of them
    holds a slash. *)
Theorem init_annotations_keys w :
  exists keys,
    init_annotations w = (Ok keys, w) /\
    (forall key, key ∈ keys <->
       exists s, s ∈ self_ivecs w /\ nonempty_set s = true /\
                 reg_name_of (strip_beamformed (name s)) = key) /\
    (forall key, key ∈ keys -> Py.contains "/" key = false).
Proof.
  exists (init_annotations_loop (self_ivecs w) ∅).
  assert (Hk : forall key, key ∈ init_annotations_loop (self_ivecs w) ∅ <->
             exists s, s ∈ self_ivecs w /\ nonempty_set s = true /\
                       reg_name_of (strip_beamformed (name s)) = key).
  { intros key. rewrite init_annotations_loop_keys. split; [|auto].
    intros [Hk|Hk]; [|exact Hk]. apply elem_of_empty in Hk as []. }
  split; [reflexivity|]. split; [exact Hk|].
  intros key Hin. apply Hk in Hin as (s & _ & _ & <-).
  apply re_sub_slash_rest_no_slash.
Qed.

Lemma hyp_lines_world scores keys nm reg i (l : list (Ivec real)) hyp w :
  snd (hyp_lines scores keys nm reg i l hyp w) = w.
Proof.
  revert i hyp. induction l as [|ivec l IH]; intros i hyp; simpl; [reflexivity|].
  unfold bind, lift, ret, raise.
  destruct (label scores nm i); [|reflexivity].
  destruct (bool_decide (reg ∈ keys)); [|reflexivity].
  apply IH.
Qed.

Lemma hyp_lines_KeyError scores keys nm reg i (l : list (Ivec real)) hyp w key :
  reg ∈ keys ->
  fst (hyp_lines scores keys nm reg i l hyp w) = Raise (KeyError key) ->
  scores !! nm = None /\ key = nm.
Proof.
  intros Hreg. revert i hyp. induction l as [|ivec l IH]; intros i hyp; simpl;
    [discriminate|].
  unfold bind, lift, ret, raise.
  destruct (label scores nm i) as [k|e] eqn:El.
  - rewrite bool_decide_true by exact Hreg. apply IH.
  - simpl. intros E. inversion E; subst. apply label_KeyError in El. exact El.
Qed.

Lemma get_der_loop_KeyError scores keys (sets : list (IvecSet real)) hyp w key :
  (forall s, s ∈ sets -> nonempty_set s = true ->
             reg_name_of (strip_beamformed (name s)) ∈ keys) ->
  fst (get_der_loop scores keys sets hyp w) = Raise (KeyError key) ->
  scores !! key = None /\
  exists s, s ∈ sets /\ nonempty_set s = true /\ name s = key.
Proof.
  revert hyp w. induction sets as [|s sets IH]; intros hyp w Hkeys; simpl;
    [discriminate|].
  unfold bind at 1. unfold nonempty_set in *.
  destruct (Nat.ltb 0 (set_size s)) eqn:Hs.
  - destruct (hyp_lines scores keys (name s)
                (reg_name_of (strip_beamformed (name s))) 0 (ivecs s) hyp w)
      as [[hyp'|e] w1] eqn:Eh.
    + intros E. apply IH in E as (Hn & s' & Hin & Hs' & En).
      * split; [exact Hn|]. exists s'. split; [right|]; auto.
      * intros s' Hin. apply Hkeys. right. exact Hin.
    + simpl. intros E. inversion E; subst.
      pose proof (hyp_lines_KeyError scores keys (name s) _ 0 (ivecs s) hyp w key
                    (Hkeys s ltac:(left) Hs)) as K.
      rewrite Eh in K. destruct (K eq_refl) as [Hn ->].
      split; [exact Hn|]. exists s. split; [left|]; auto.
  - unfold bind at 1, logwarning, ret. intros E.
    apply IH in E as (Hn & s' & Hin & Hs' & En).
    + split; [exact Hn|]. exists s'. split; [right|]; auto.
    + intros s' Hin. apply Hkeys. right. exact Hin.
Qed.

(** X23.  A [KeyError] of the loop of [get_der] over [self.ivecs] always
    comes from [scores[name]], for the current name of a set with embeddings
    that the dictionary does not hold: [hyp[reg_name]] is always found,
    because [init_annotations] has made its keys from the same names. *)
Theorem get_der_KeyError scores w key :
  fst (get_der_hyp scores w) = Raise (KeyError key) ->
  scores !! key = None /\
  exists s, s ∈ self_ivecs w /\ nonempty_set s = true /\ name s = key.
Proof.
  unfold get_der_hyp, init_annotations, get_self_ivecs, bind, ret. simpl.
  apply get_der_loop_KeyError. intros s Hin Hs.
  apply init_annotations_loop_keys. right. exists s. auto.
Qed.

Lemma get_der_loop_Ok scores keys (sets : list (IvecSet real)) hyp w hyp' w' :
  get_der_loop scores keys sets hyp w = (Ok hyp', w') ->
  (forall s, s ∈ sets -> nonempty_set s = true -> is_Some (scores !! name s)) /\
  length hyp' = length hyp + length (concat (map ivecs sets)) /\
  w' = logged w (der_log sets).
Proof.
  revert hyp w. induction sets as [|s sets IH]; intros hyp w E; simpl in E.
  - apply ret_Ok in E as [-> ->]. split; [|split].
    + intros s Hs. apply elem_of_nil in Hs as [].
    + simpl. lia.
    + unfold logged, der_log. simpl. rewrite app_nil_r. destruct w; reflexivity.
  - apply bind_Ok in E as (hyp1 & w1 & Hb & E).
    apply IH in E as (Hk & Hl & ->).
    unfold der_log in *. cbn [flat_map map concat]. unfold nonempty_set in *.
    destruct (Nat.ltb 0 (set_size s)) eqn:Hs.
    + pose proof (hyp_lines_world scores keys (name s)
                    (reg_name_of (strip_beamformed (name s))) 0 (ivecs s) hyp w) as Hw.
      rewrite Hb in Hw. simpl in Hw. subst w1.
      apply hyp_lines_Ok in Hb as (ks & Hks & ->).
      pose proof (Forall2_length _ _ _ Hks) as Hlen. rewrite length_seq in Hlen.
      split; [|split].
      * intros s' Hin Hs'. apply elem_of_cons in Hin as [->|Hin]; [|auto].
        unfold set_size in Hs. destruct (ivecs s) as [|ivec l]; [discriminate|].
        simpl in Hks. inversion Hks as [|? k ? ? Hk0 _]; subst.
        apply label_Ok in Hk0 as (m & _ & Hm & _). rewrite Hm. eauto.
      * rewrite Hl, !length_app, length_zip_with. lia.
      * reflexivity.
    + apply bind_Ok in Hb as ([] & w2 & Hw & Hb).
      unfold logwarning in Hw. inversion Hw; subst w2; clear Hw.
      apply ret_Ok in Hb as [-> ->].
      split; [|split].
      * intros s' Hin Hs'. apply elem_of_cons in Hin as [->|Hin]; [congruence|auto].
      * unfold set_size in Hs. destruct (ivecs s); [|discriminate].
        simpl. exact Hl.
      * unfold logged. simpl. rewrite <- app_assoc. reflexivity.
Qed.

(** X24.  When the loop of [get_der] over [self.ivecs] returns: the scores
    of every set with embeddings were found under its current name; the
    hypothesis holds one assignment per embedding; and nothing has changed
    but the log, which has gained the warnings for the sets of size 0. *)
Theorem get_der_hyp_Ok scores w hyp w' :
  get_der_hyp scores w = (Ok hyp, w') ->
  (forall s, s ∈ self_ivecs w -> nonempty_set s = true ->
             is_Some (scores !! name s)) /\
  length hyp = length (concat (map ivecs (self_ivecs w))) /\
  w' = logged w (der_log (self_ivecs w)).
Proof.
  unfold get_der_hyp, init_annotations, get_self_ivecs, bind, ret. simpl.
  intros E. apply get_der_loop_Ok in E as (A & B & C). auto.
Qed.

(** X25.  [score], [dump_rttm] and [get_der] run one after the other on
    the dictionary of [score] can all return only if the rewritten name of
    every set with embeddings is the normalized name of some set with
    embeddings: a set renamed by [dump_rttm] is looked up by [get_der] under
    its new name. *)
Theorem pipeline_names w d w1 w2 hyp w3 (s : IvecSet real) :
  score cfg w = (Ok d, w1) ->
  dump_rttm cfg d w1 = (Ok tt, w2) ->
  get_der_hyp d w2 = (Ok hyp, w3) ->
  s ∈ self_ivecs w -> nonempty_set s = true ->
  exists s0, s0 ∈ self_ivecs w /\ nonempty_set s0 = true /\
             OsPath.normpath (name s0) = strip_beamformed (name s).
Proof.
  intros Hsc Hd Hg Hin Hs.
  pose proof (score_keeps cfg w) as (Hi & _). rewrite Hsc in Hi. simpl in Hi.
  unfold dump_rttm, get_self_ivecs in Hd. unfold bind at 1 in Hd.
  apply (dump_loop_ivecs cfg d (self_ivecs w1) [] w1) in Hd
    as (k & _ & Hw & Hk); [|reflexivity].
  rewrite (Hk eq_refl), firstn_all, drop_all, app_nil_r in Hw. simpl in Hw.
  unfold get_der_hyp, init_annotations, get_self_ivecs, bind, ret in Hg.
  simpl in Hg. apply get_der_loop_Ok in Hg as (Hg & _ & _).
  destruct (renamed_attributes s) as (En & _ & Ei).
  unfold nonempty_set in Hs. rewrite Hs in En.
  assert (Hr : renamed s ∈ self_ivecs w2).
  { rewrite Hw, Hi. apply list_elem_of_fmap. exists s. auto. }
  assert (Hrs : nonempty_set (renamed s) = true).
  { unfold nonempty_set, set_size. rewrite Ei. exact Hs. }
  specialize (Hg _ Hr Hrs). rewrite En in Hg.
  apply (score_keys cfg _ _ _ Hsc) in Hg as (s0 & Hin0 & Hs0 & E).
  exists s0. repeat split; auto. unfold nonempty_set. apply Nat.ltb_lt, Hs0.
Qed.

Lemma get_der_ref_loop_app keys before rest acc (ref : list (ref_entry real)) :
  get_der_ref_loop keys before acc = Ok ref ->
  get_der_ref_loop keys (before ++ rest) acc = get_der_ref_loop keys rest ref.
Proof.
  revert acc. induction before as [|line before IH]; intros acc; simpl.
  - intros E. inversion E. reflexivity.
  - destruct (ref_line keys line) as [e|e]; simpl; [apply IH | discriminate].
Qed.

Lemma get_der_annotations_ref_raise before line rest scores w ref e :
  get_der_ref_loop (init_annotations_loop (self_ivecs w) ∅) before [] = Ok ref ->
  ref_line (init_annotations_loop (self_ivecs w) ∅) line = Raise e ->
  get_der_annotations (before ++ line :: rest) scores w = (Raise e, w).
Proof.
  intros Hb Hl. unfold get_der_annotations, init_annotations, get_self_ivecs.
  unfold bind at 1. unfold bind at 1. unfold ret at 1. unfold bind at 1, lift.
  rewrite (get_der_ref_loop_app _ _ _ _ _ Hb). simpl. rewrite Hl. reflexivity.
Qed.

(** X26.  A line of the reference file that names a recording without
    embeddings (no set with embeddings has it as its group name) makes
    [get_der] raise [KeyError] for that name, before any hypothesis is
    built. *)
Theorem get_der_unknown_reference before line rest scores w ref
    f0 nm f2 start duration f5 f6 speaker f8 :
  get_der_ref_loop (init_annotations_loop (self_ivecs w) ∅) before [] = Ok ref ->
  Py.split line = [f0; nm; f2; start; duration; f5; f6; speaker; f8] ->
  (forall s, s ∈ self_ivecs w -> nonempty_set s = true ->
             reg_name_of (strip_beamformed (name s)) <> nm) ->
  get_der_annotations (before ++ line :: rest) scores w = (Raise (KeyError nm), w).
Proof.
  intros Hb Hs Hnone. eapply get_der_annotations_ref_raise; [exact Hb|].
  unfold ref_line. rewrite Hs. rewrite bool_decide_false; [reflexivity|].
  intros Hin. apply init_annotations_loop_keys in Hin as [Hin|(s & Hin & Hne & E)].
  - apply elem_of_empty in Hin as [].
  - apply (Hnone s Hin Hne E).
Qed.

(** X27.  A line of the reference file that does not have exactly nine
    fields makes [get_der] raise [ValueError]. *)
Theorem get_der_reference_fields before line rest scores w ref :
  get_der_ref_loop (init_annotations_loop (self_ivecs w) ∅) before [] = Ok ref ->
  length (Py.split line) <> 9 ->
  get_der_annotations (before ++ line :: rest) scores w = (Raise ValueError, w).
Proof.
  intros Hb Hlen. eapply get_der_annotations_ref_raise; [exact Hb|].
  unfold ref_line.
  destruct (Py.split line) as [|? [|? [|? [|? [|? [|? [|? [|? [|? [|? ?]]]]]]]]]];
    try reflexivity.
  simpl in Hlen. congruence.
Qed.

End AnnotationTheory.

(* ===================================================================== *)
(** ** Further theory: [get_ivec], [plot_der], the classifiers *)
(* ===================================================================== *)

Section LookupTheory.
Context {real seed : Type} `{Numeric real} `{Collaborators real seed}
        `{FloatSyntax real}.
Implicit Types (w : world real seed).

Lemma get_ivec_loop_found nm (before : list (IvecSet real)) s after printed :
  name s = nm ->
  (forall s', s' ∈ before -> name s' <> nm) ->
  get_ivec_loop nm (before ++ s :: after) printed
  = (printed ++ map name before ++ [nm], Ok s).
Proof.
  intros Hs. revert printed. induction before as [|b before IH];
    intros printed Hne; simpl.
  - rewrite Hs, String.eqb_refl. reflexivity.
  - assert (Hb : String.eqb nm (name b) = false).
    { apply String.eqb_neq. intros C. apply (Hne b); [left | auto]. }
    rewrite Hb, IH, <- app_assoc; [reflexivity|].
    intros s' Hin. apply Hne. right. exact Hin.
Qed.

Lemma get_ivec_loop_absent nm (sets : list (IvecSet real)) printed :
  (forall s, s ∈ sets -> name s <> nm) ->
  get_ivec_loop nm sets printed
  = (printed ++ map name sets,
     Raise (DiarizationException (msg_not_found nm))).
Proof.
  revert printed. induction sets as [|b sets IH]; intros printed Hne; simpl.
  - rewrite app_nil_r. reflexivity.
  - assert (Hb : String.eqb nm (name b) = false).
    { apply String.eqb_neq. intros C. apply (Hne b); [left | auto]. }
    rewrite Hb, IH, <- app_assoc; [reflexivity|].
    intros s' Hin. apply Hne. right. exact Hin.
Qed.

(** X28.  [get_ivec] returns the first set of [self.ivecs] that carries the
    name, having printed the names of the sets up to and including it; when
    no set carries the name it raises the [DiarizationException] that quotes
    the name, having printed every name. *)
Theorem get_ivec_first_match nm w :
  (forall before s after,
     self_ivecs w = before ++ s :: after ->
     name s = nm ->
     (forall s', s' ∈ before -> name s' <> nm) ->
     get_ivec nm w = (map name before ++ [nm], Ok s)) /\
  ((forall s, s ∈ self_ivecs w -> name s <> nm) ->
   get_ivec nm w
   = (map name (self_ivecs w), Raise (DiarizationException (msg_not_found nm)))).
Proof.
  unfold get_ivec. split.
  - intros before s after -> Hs Hne.
    apply (get_ivec_loop_found nm before s after [] Hs Hne).
  - intros Hne. apply (get_ivec_loop_absent nm (self_ivecs w) [] Hne).
Qed.

(** *** [sorted] and [plot_der] *)

Lemma sorted_insert_perm {A} (ltb : A -> A -> bool) x l :
  sorted_insert ltb x l ≡ₚ x :: l.
Proof.
  induction l as [|y l IH]; simpl; [reflexivity|].
  destruct (ltb x y); [reflexivity|]. rewrite IH. apply Permutation_swap.
Qed.

Lemma sorted_fold_perm {A} (ltb : A -> A -> bool) l acc :
  fold_left (fun a x => sorted_insert ltb x a) l acc ≡ₚ l ++ acc.
Proof.
  revert acc. induction l as [|x l IH]; intros acc; simpl; [reflexivity|].
  rewrite IH, sorted_insert_perm. symmetry. apply Permutation_middle.
Qed.

Lemma sorted_perm {A} (ltb : A -> A -> bool) l : sorted ltb l ≡ₚ l.
Proof. unfold sorted. rewrite sorted_fold_perm, app_nil_r. reflexivity. Qed.

Lemma sorted_insert_fst (p : string * real) acc :
  fst p ∉ map fst acc ->
  map fst (sorted_insert pair_ltb p acc)
  = sorted_insert String.ltb (fst p) (map fst acc).
Proof.
  induction acc as [|q acc IH]; intros Hp; simpl; [reflexivity|].
  assert (Hq : String.eqb (fst p) (fst q) = false).
  { apply String.eqb_neq. intros C. apply Hp. simpl. rewrite C. left. }
  unfold pair_ltb at 1. rewrite Hq.
  destruct (String.ltb (fst p) (fst q)); [reflexivity|].
  simpl. rewrite IH; [reflexivity|].
  intros C. apply Hp. simpl. right. exact C.
Qed.

Lemma sorted_fold_fst (ps acc : list (string * real)) :
  NoDup (map fst ps) ->
  (forall n, n ∈ map fst ps -> n ∉ map fst acc) ->
  map fst (fold_left (fun a x => sorted_insert pair_ltb x a) ps acc)
  = fold_left (fun a x => sorted_insert String.ltb x a) (map fst ps) (map fst acc).
Proof.
  revert acc. induction ps as [|p ps IH]; intros acc Hnd Hdis; simpl; [reflexivity|].
  simpl in Hnd. apply NoDup_cons in Hnd as [Hp Hnd].
  rewrite IH.
  - rewrite sorted_insert_fst; [reflexivity|]. apply Hdis. left.
  - exact Hnd.
  - intros n Hn C.
    assert (C' : n ∈ map fst (p :: acc)).
    { rewrite <- (sorted_insert_perm pair_ltb p acc). exact C. }
    simpl in C'. apply elem_of_cons in C' as [->|C'].
    + apply Hp, Hn.
    + apply (Hdis n); [right; exact Hn | exact C'].
Qed.

(** X29.  For distinct names with one value each, the names and the values
    that [plot_der] prints and plots are the names in sorted order, each with
    its own value: the pairs of the two plotted lists are the pairs given,
    rearranged. *)
Theorem plot_der_keeps_pairs (names : list string) (values : list real) :
  NoDup names ->
  length names = length values ->
  snd (plot_der names values) = sorted String.ltb names /\
  zip (snd (plot_der names values)) (fst (plot_der names values))
    ≡ₚ zip names values.
Proof.
  intros Hnd Hlen. unfold plot_der. simpl. split; [reflexivity|].
  assert (Hfst : map fst (zip names values) = names).
  { apply fst_zip. lia. }
  assert (E : map fst (sorted pair_ltb (zip names values))
              = sorted String.ltb names).
  { unfold sorted. rewrite (sorted_fold_fst (zip names values) []).
    - simpl. rewrite Hfst. reflexivity.
    - rewrite Hfst. exact Hnd.
    - intros n _ C. simpl in C. apply elem_of_nil in C as []. }
  rewrite <- E. rewrite zip_fst_snd. apply sorted_perm.
Qed.

End LookupTheory.

(* ===================================================================== *)
(** ** The further theorems at the concrete instance *)
(* ===================================================================== *)

Section FurtherWitnesses.

#[local] Existing Instance Demo2.Z_float.

Lemma load_ivecs_one_token_witness :
  load_ivecs Demo.cfg_raw ["rec1" +:+ Demo2.newline] (Demo.world0 [])
  = (Ok [Demo.rec1], logged (Demo.world0 []) [Info (msg_loading "rec1")]).
Proof.
  rewrite (load_ivecs_one_token Demo.cfg_raw ("rec1" +:+ Demo2.newline) "rec1"
             Demo.rec1 [] (Demo.world0 [])); reflexivity.
Defined.

Lemma load_ivecs_two_tokens_witness :
  load_ivecs Demo.cfg_raw ["a//rec2 2" +:+ Demo2.newline] (Demo.world0 [])
  = (Ok [mkIvecSet "a//rec2" (Some 2%Z) (ivecs Demo.rec2)],
     logged (Demo.world0 []) [Info (msg_loading "a//rec2")]).
Proof.
  rewrite (load_ivecs_two_tokens Demo.cfg_raw ("a//rec2 2" +:+ Demo2.newline)
             "a//rec2" "2" 2 Demo.rec2 [] (Demo.world0 [])); reflexivity.
Defined.

Lemma load_ivecs_skips_missing_witness :
  load_ivecs Demo.cfg_raw ["missing"; "rec1"] (Demo.world0 [])
  = load_ivecs Demo.cfg_raw ["rec1"]
      (logged (Demo.world0 []) [Info (msg_loading "missing");
                                Warning (msg_no_pickle "missing")]).
Proof.
  apply (load_ivecs_skips_missing Demo.cfg_raw "missing" "missing" ["rec1"]
           (Demo.world0 [])).
  left. split; reflexivity.
Defined.

Lemma load_ivecs_bad_count_witness :
  load_ivecs Demo.cfg_raw ["rec1"; "missing two"; "rec1"] (Demo.world0 [])
  = (Raise ValueError,
     logged (logged (Demo.world0 []) [Info (msg_loading "rec1")])
       [Info (msg_loading "missing")]).
Proof.
  apply (load_ivecs_bad_count Demo.cfg_raw ["rec1"] "missing two" "missing" "two"
           ["rec1"] (Demo.world0 []) [Demo.rec1]); reflexivity.
Defined.

Lemma load_ivecs_too_many_tokens_witness :
  load_ivecs Demo.cfg_raw ["rec1"; "rec1 2 extra"; "rec1"] (Demo.world0 [])
  = (Raise (DiarizationException (msg_columns "list.txt")),
     logged (logged (Demo.world0 []) [Info (msg_loading "rec1")])
       [Info (msg_loading "rec1")]).
Proof.
  apply (load_ivecs_too_many_tokens Demo.cfg_raw ["rec1"] "rec1 2 extra"
           "rec1" "2" "extra" [] ["rec1"] (Demo.world0 []) [Demo.rec1]);
    reflexivity.
Defined.

Lemma load_ivecs_trailing_whitespace_witness :
  all_space (" " +:+ Demo2.newline) = true /\
  load_ivecs Demo.cfg_raw [("rec1" +:+ " " +:+ Demo2.newline); "rec1"] (Demo.world0 [])
  = load_ivecs Demo.cfg_raw ["rec1"; "rec1"] (Demo.world0 []).
Proof.
  split; [reflexivity|].
  apply (load_ivecs_trailing_whitespace Demo.cfg_raw "rec1" (" " +:+ Demo2.newline)
           ["rec1"] (Demo.world0 [])).
  reflexivity.
Defined.

Lemma load_ivecs_Ok_witness :
  load_ivecs Demo.cfg_raw ["rec1"; "missing"] (Demo.world0 [])
  = (Ok [Demo.rec1],
     logged (Demo.world0 []) [Info (msg_loading "rec1");
                              Info (msg_loading "missing");
                              Warning (msg_no_pickle "missing")]) /\
  Forall from_pickle [Demo.rec1] /\
  length [Demo.rec1] <= 2.
Proof.
  assert (E : load_ivecs Demo.cfg_raw ["rec1"; "missing"] (Demo.world0 [])
              = (Ok [Demo.rec1],
                 logged (Demo.world0 []) [Info (msg_loading "rec1");
                                          Info (msg_loading "missing");
                                          Warning (msg_no_pickle "missing")]))
    by reflexivity.
  split; [exact E|].
  destruct (load_ivecs_Ok Demo.cfg_raw _ _ _ _ E) as (A & B & _).
  split; [exact A | exact B].
Defined.

Lemma score_dictionary_keys_witness :
  exists d w',
    score Demo.cfg_raw
      (Demo.world0 [with_num_speakers Demo.rec2 2; Demo.empty_set]) = (Ok d, w') /\
    is_Some (d !! "a/rec2") /\
    forall key, is_Some (d !! key) -> OsPath.normpath key = key.
Proof.
  eassert (E : score Demo.cfg_raw
                 (Demo.world0 [with_num_speakers Demo.rec2 2; Demo.empty_set])
               = (Ok _, _)) by (vm_compute; reflexivity).
  do 2 eexists. split; [exact E|].
  destruct (score_dictionary_keys Demo.cfg_raw _ _ _ E) as (K & N).
  split; [|exact N].
  apply K. exists (with_num_speakers Demo.rec2 2).
  split; [left|split; reflexivity].
Defined.

Lemma get_num_speakers_class_out_of_range_witness :
  get_num_speakers (H0 := Demo2.collab_wide) Demo.x1 2 6 (Demo.world0 [])
  = (Raise IndexError, Demo.world5).
Proof.
  eassert (El : get_num_speakers_loop (H0 := Demo2.collab_wide) Demo.x1
                  (range 2 (6 + 1)) [] [] (Demo.world0 [])
                = (Ok (_, _), _)) by (vm_compute; reflexivity).
  apply (get_num_speakers_loop_passes (H0 := Demo2.collab_wide)) in El
    as (cl & fs & Ecl & Efs & Hp).
  apply (get_num_speakers_class_out_of_range (H0 := Demo2.collab_wide)
           Demo.x1 2 6 (Demo.world0 []) cl fs Demo.world5
           (map (fun _ => [0; 0; 0; 0; 0; 0; 9]%Z) fs) 6 Hp).
  - reflexivity.
  - simpl in Efs. subst fs. vm_compute. reflexivity.
  - vm_compute. lia.
Defined.

Lemma get_num_speakers_cluster_failure_witness :
  get_num_speakers (H0 := Demo.collab) Demo2.x2 2 6 (Demo.world0 [])
  = (Raise ValueError, mkWorld [] 1 [] [] ∅).
Proof.
  eassert (El : get_num_speakers_loop (H0 := Demo.collab) Demo2.x2 [2%Z] [] []
                  (Demo.world0 [])
                = (Ok (_, _), _)) by (vm_compute; reflexivity).
  apply (get_num_speakers_loop_passes (H0 := Demo.collab)) in El
    as (cl & fs & _ & _ & Hp).
  apply (get_num_speakers_cluster_failure (H0 := Demo.collab) Demo2.x2 2 6
           (Demo.world0 []) [2%Z] 3 [4; 5; 6]%Z cl fs _ ValueError _
           eq_refl Hp).
  vm_compute. reflexivity.
Defined.

Lemma dump_body_writes_file_witness :
  exists w',
    dump_body Demo.cfg_raw Demo.scores3 0 Demo.rec3 (Demo.world0 [Demo.rec3])
    = (Ok tt, w') /\
    files w' !! "out/beamformed/rec3.rttm"
    = Some [RttmLine "rec3" 0 500 0; RttmLine "rec3" 500 400 0].
Proof.
  eassert (E : dump_body Demo.cfg_raw Demo.scores3 0 Demo.rec3
                 (Demo.world0 [Demo.rec3]) = (Ok tt, _))
    by (vm_compute; reflexivity).
  eexists. split; [exact E|].
  destruct (dump_body_writes_file Demo.cfg_raw Demo.scores3 0 Demo.rec3 _ _
              eq_refl E) as ((ks & Hks & Hf) & _).
  change (rttm_path Demo.cfg_raw (name Demo.rec3))
    with "out/beamformed/rec3.rttm" in Hf.
  rewrite Hf. f_equal.
  change (set_size Demo.rec3) with 2 in Hks. cbn [seq] in Hks.
  apply Forall2_cons_inv_l in Hks as (k0 & ks' & Hk0 & Hks & ->).
  apply Forall2_cons_inv_l in Hks as (k1 & ks'' & Hk1 & Hks & ->).
  apply Forall2_nil_inv_l in Hks as ->.
  vm_compute in Hk0, Hk1. inversion Hk0. inversion Hk1. reflexivity.
Defined.

Lemma dump_body_missing_scores_witness :
  exists w',
    dump_body Demo.cfg_raw ∅ 0 Demo.rec3 (Demo.world0 [Demo.rec3])
    = (Raise (KeyError "beamformed/rec3"), w') /\
    files w' = {[ "out/beamformed/rec3.rttm" := [] ]} /\
    made_dirs w' = ["out/beamformed"] /\
    map name (self_ivecs w') = ["rec3"].
Proof.
  destruct (dump_body_missing_scores Demo.cfg_raw ∅ 0 Demo.rec3
              (Demo.world0 [Demo.rec3]) eq_refl (lookup_empty _))
    as (w' & E & Hf & Hd & Hi).
  exists w'. split; [exact E|]. rewrite Hf, Hd, Hi. repeat split.
Defined.

Lemma dump_rttm_files_frame_witness :
  rng (snd (dump_rttm Demo.cfg_raw Demo.scores3
              (Demo.world0 [Demo.rec3; Demo.empty_set]))) = 0 /\
  files (snd (dump_rttm Demo.cfg_raw Demo.scores3
                (Demo.world0 [Demo.rec3; Demo.empty_set])))
    !! "out/beamformed/empty.rttm" = None.
Proof.
  destruct (dump_rttm_files_frame Demo.cfg_raw Demo.scores3
              (Demo.world0 [Demo.rec3; Demo.empty_set])) as (A & B & _).
  split; [exact A|].
  rewrite B; [reflexivity|].
  intros s Hin Hs. apply list_elem_of_In in Hin.
  destruct Hin as [<-|[<-|[]]]; [vm_compute; discriminate | discriminate Hs].
Defined.

Lemma dump_rttm_Ok_witness :
  dump_rttm Demo.cfg_raw Demo.scores3 (Demo.world0 [Demo.rec3; Demo.empty_set])
  = (Ok tt, Demo.world_dumped) /\
  log Demo.world_dumped = [Warning (msg_nothing_to_dump "beamformed/empty")] /\
  made_dirs Demo.world_dumped = ["out/beamformed"].
Proof.
  assert (E : dump_rttm Demo.cfg_raw Demo.scores3
                (Demo.world0 [Demo.rec3; Demo.empty_set])
              = (Ok tt, Demo.world_dumped)) by (vm_compute; reflexivity).
  split; [exact E|].
  destruct (dump_rttm_Ok Demo.cfg_raw _ _ _ E) as (A & B & _).
  split; [rewrite A | rewrite B]; reflexivity.
Defined.

Lemma dump_rttm_after_score_witness :
  exists d w1 w2,
    score Demo.cfg_raw (Demo.world0 [with_num_speakers Demo.rec1 2]) = (Ok d, w1) /\
    dump_rttm Demo.cfg_raw d w1 = (Ok tt, w2) /\
    OsPath.normpath "rec1" = "rec1".
Proof.
  eassert (Es : score Demo.cfg_raw (Demo.world0 [with_num_speakers Demo.rec1 2])
                = (Ok _, _)) by (vm_compute; reflexivity).
  match type of Es with
  | _ = (Ok ?d, ?w1) =>
      eassert (Ed : dump_rttm Demo.cfg_raw d w1 = (Ok tt, _))
        by (vm_compute; reflexivity)
  end.
  do 3 eexists. split; [exact Es|]. split; [exact Ed|].
  apply (dump_rttm_after_score Demo.cfg_raw _ _ _ _
           (with_num_speakers Demo.rec1 2) Es Ed).
  - apply list_elem_of_In. left. reflexivity.
  - reflexivity.
Defined.

Lemma reg_name_of_first_component_witness :
  Py.contains (String "010" "") "rec7/mic1/a" = false /\
  reg_name_of "rec7/mic1/a" = "rec7".
Proof.
  split; [reflexivity|].
  destruct (reg_name_of_first_component "rec7/mic1/a") as (_ & F).
  rewrite F; reflexivity.
Defined.

Lemma dump_rttm_keeps_plain_names_witness :
  self_ivecs (snd (dump_rttm Demo.cfg_raw ∅ (Demo.world0 [Demo.rec1; Demo.rec2])))
  = [Demo.rec1; Demo.rec2].
Proof.
  apply (dump_rttm_keeps_plain_names Demo.cfg_raw ∅
           (Demo.world0 [Demo.rec1; Demo.rec2])).
  intros s Hin. apply list_elem_of_In in Hin.
  destruct Hin as [<-|[<-|[]]]; reflexivity.
Defined.

Lemma dump_body_absolute_name_witness :
  exists w',
    dump_body Demo.cfg_raw Demo2.scores_abs 0 Demo2.rec_abs
      (Demo.world0 [Demo2.rec_abs]) = (Ok tt, w') /\
    rttm_path Demo.cfg_raw "/data/rec9" = "/data/rec9.rttm" /\
    is_Some (files w' !! "/data/rec9.rttm").
Proof.
  eassert (E : dump_body Demo.cfg_raw Demo2.scores_abs 0 Demo2.rec_abs
                 (Demo.world0 [Demo2.rec_abs]) = (Ok tt, _))
    by (vm_compute; reflexivity).
  eexists. split; [exact E|].
  apply (dump_body_absolute_name Demo.cfg_raw Demo2.scores_abs 0 Demo2.rec_abs
           _ _ eq_refl eq_refl E).
Defined.

Lemma get_der_KeyError_witness :
  fst (get_der_hyp Demo.scores3 Demo.world_dumped) = Raise (KeyError "rec3") /\
  Demo.scores3 !! "rec3" = None /\
  exists s, s ∈ self_ivecs Demo.world_dumped /\ nonempty_set s = true /\
            name s = "rec3".
Proof.
  assert (E : fst (get_der_hyp Demo.scores3 Demo.world_dumped)
              = Raise (KeyError "rec3")) by (vm_compute; reflexivity).
  split; [exact E|].
  apply (get_der_KeyError Demo.scores3 Demo.world_dumped "rec3" E).
Defined.

Lemma get_der_hyp_Ok_witness :
  exists hyp w',
    get_der_hyp Demo.scores3 (Demo.world0 [Demo.rec3; Demo.empty_set])
    = (Ok hyp, w') /\
    length hyp = 2 /\
    w' = logged (Demo.world0 [Demo.rec3; Demo.empty_set])
           [Warning (msg_nothing_for_der "beamformed/empty")].
Proof.
  eassert (E : get_der_hyp Demo.scores3 (Demo.world0 [Demo.rec3; Demo.empty_set])
               = (Ok _, _)) by (vm_compute; reflexivity).
  do 2 eexists. split; [exact E|].
  destruct (get_der_hyp_Ok _ _ _ _ E) as (_ & A & B).
  split; [rewrite A; reflexivity | rewrite B; reflexivity].
Defined.

(** The recording from the [beamformed] directory is renamed by
    [dump_rttm], and [get_der] then finds under its new name the scores of
    the recording that had this name from the start. *)
Lemma pipeline_names_witness :
  Py.contains "beamformed" (name Demo3.rec3_beamformed) = true /\
  exists d w1 w2 hyp w3,
    score Demo.cfg_raw (Demo.world0 [Demo3.rec3_beamformed; Demo3.rec3_plain])
      = (Ok d, w1) /\
    dump_rttm Demo.cfg_raw d w1 = (Ok tt, w2) /\
    map name (self_ivecs w2) = ["rec3"; "rec3"] /\
    get_der_hyp d w2 = (Ok hyp, w3) /\
    strip_beamformed (name Demo3.rec3_beamformed) = "rec3" /\
    exists s0, s0 ∈ [Demo3.rec3_beamformed; Demo3.rec3_plain] /\
               nonempty_set s0 = true /\
               OsPath.normpath (name s0)
               = strip_beamformed (name Demo3.rec3_beamformed).
Proof.
  split; [reflexivity|].
  eassert (Es : score Demo.cfg_raw
                  (Demo.world0 [Demo3.rec3_beamformed; Demo3.rec3_plain])
                = (Ok _, _)) by (vm_compute; reflexivity).
  match type of Es with
  | _ = (Ok ?d, ?w1) =>
      eassert (Ed : dump_rttm Demo.cfg_raw d w1 = (Ok tt, _))
        by (vm_compute; reflexivity)
  end.
  match type of Ed with
  | dump_rttm _ ?d _ = (_, ?w2) =>
      eassert (Eg : get_der_hyp d w2 = (Ok _, _)) by (vm_compute; reflexivity)
  end.
  do 5 eexists. split; [exact Es|]. split; [exact Ed|].
  split; [reflexivity|]. split; [exact Eg|]. split; [reflexivity|].
  apply (pipeline_names Demo.cfg_raw _ _ _ _ _ _
           Demo3.rec3_beamformed Es Ed Eg).
  - apply list_elem_of_In. left. reflexivity.
  - reflexivity.
Defined.

Lemma get_der_unknown_reference_witness :
  get_der_annotations [Demo2.ref_rec3; Demo2.ref_other] Demo.scores3
    (Demo.world0 [Demo.rec3])
  = (Raise (KeyError "other"), Demo.world0 [Demo.rec3]).
Proof.
  apply (get_der_unknown_reference [Demo2.ref_rec3] Demo2.ref_other []
           Demo.scores3 (Demo.world0 [Demo.rec3])
           [RefEntry "rec3" 10%Z 15%Z "spkA"]
           "SPEAKER" "other" "1" "10" "5" "<NA>" "<NA>" "spkB" "<NA>").
  - vm_compute. reflexivity.
  - reflexivity.
  - intros s Hin _. apply list_elem_of_In in Hin. destruct Hin as [<-|[]].
    vm_compute. discriminate.
Defined.

Lemma get_der_reference_fields_witness :
  get_der_annotations [Demo2.ref_rec3; Demo2.ref_short] Demo.scores3
    (Demo.world0 [Demo.rec3])
  = (Raise ValueError, Demo.world0 [Demo.rec3]).
Proof.
  apply (get_der_reference_fields [Demo2.ref_rec3] Demo2.ref_short []
           Demo.scores3 (Demo.world0 [Demo.rec3])
           [RefEntry "rec3" 10%Z 15%Z "spkA"]).
  - vm_compute. reflexivity.
  - vm_compute. lia.
Defined.

Lemma get_ivec_first_match_witness :
  get_ivec "a//rec2" (Demo.world0 [Demo.rec1; Demo.rec2; Demo.rec3])
  = (["rec1"; "a//rec2"], Ok Demo.rec2) /\
  get_ivec "rec9" (Demo.world0 [Demo.rec1; Demo.rec2])
  = (["rec1"; "a//rec2"], Raise (DiarizationException (msg_not_found "rec9"))).
Proof.
  split.
  - destruct (get_ivec_first_match "a//rec2"
                (Demo.world0 [Demo.rec1; Demo.rec2; Demo.rec3])) as (F & _).
    apply (F [Demo.rec1] Demo.rec2 [Demo.rec3]); [reflexivity | reflexivity |].
    intros s Hin. apply list_elem_of_In in Hin. destruct Hin as [<-|[]].
    vm_compute. discriminate.
  - destruct (get_ivec_first_match "rec9"
                (Demo.world0 [Demo.rec1; Demo.rec2])) as (_ & F).
    apply F. intros s Hin. apply list_elem_of_In in Hin.
    destruct Hin as [<-|[<-|[]]]; vm_compute; discriminate.
Defined.

Lemma plot_der_keeps_pairs_witness :
  plot_der (H := Demo.Z_numeric) ["rec2"; "rec1"; "rec3"] [20; 10; 30]%Z
  = ([10; 20; 30]%Z, ["rec1"; "rec2"; "rec3"]) /\
  zip ["rec1"; "rec2"; "rec3"] [10; 20; 30]%Z
    ≡ₚ zip ["rec2"; "rec1"; "rec3"] [20; 10; 30]%Z.
Proof.
  split; [reflexivity|].
  destruct (plot_der_keeps_pairs (H := Demo.Z_numeric)
              ["rec2"; "rec1"; "rec3"] [20; 10; 30]%Z) as (_ & P).
  - repeat constructor; rewrite ?elem_of_cons, ?elem_of_nil;
      intros C; repeat destruct C as [C|C]; try discriminate C; exact C.
  - reflexivity.
  - exact P.
Defined.

End FurtherWitnesses.
